(** * txtopener: encoding detection and BOM stripping

    A shallow embedding of the Go package [txtopener] (the current
    [txtopener.go] and its two earlier revisions) together with the
    properties stated about it.

    Go's [[]byte] is [list byte], Go's [string] is [string]; a reader is
    the sequence of bytes it still has to deliver followed by the error
    it ends with.  The packages the code imports ([charset], [html],
    [mime], the registered decoders) are arguments of the development,
    gathered in the class [Library]; what a statement needs to know of
    them is a hypothesis of that statement. *)

From Stdlib Require Import ZArith NArith Lia Bool.
From Stdlib Require Import Strings.Ascii Strings.String Strings.Byte.
From stdpp Require Import gmap strings list.

Local Open Scope string_scope.
Local Open Scope list_scope.

(** ** Go's [strings] package, on [string] *)

Module GoStrings.

(** [len(s)] *)
Definition len (s : string) : nat := String.length s.

(** [strings.HasPrefix(s, prefix)] *)
Fixpoint HasPrefix (s prefix : string) {struct prefix} : bool :=
  match prefix with
  | EmptyString => true
  | String p prefix' =>
      match s with
      | EmptyString => false
      | String c s' => if Ascii.eqb c p then HasPrefix s' prefix' else false
      end
  end.

(** [strings.Index(s, substr)]; [None] is Go's [-1]. *)
Fixpoint Index (s substr : string) : option nat :=
  match s with
  | EmptyString => if HasPrefix EmptyString substr then Some 0 else None
  | String _ s' =>
      if HasPrefix s substr then Some 0
      else match Index s' substr with
           | Some i => Some (S i)
           | None => None
           end
  end.

(** [s[n:]], for [n <= len(s)] *)
Fixpoint from (n : nat) (s : string) : string :=
  match n, s with
  | O, _ => s
  | S n', String _ s' => from n' s'
  | S _, EmptyString => EmptyString
  end.

(** [s[:n]], for [n <= len(s)] *)
Fixpoint upto (n : nat) (s : string) : string :=
  match n, s with
  | O, _ => EmptyString
  | S n', String c s' => String c (upto n' s')
  | S _, EmptyString => EmptyString
  end.

(** membership of a byte in a cutset of ASCII characters *)
Fixpoint inSet (c : ascii) (cutset : string) : bool :=
  match cutset with
  | EmptyString => false
  | String d cutset' => Ascii.eqb c d || inSet c cutset'
  end.

(** [strings.TrimLeft(s, cutset)] for an ASCII cutset *)
Fixpoint TrimLeft (s cutset : string) : string :=
  match s with
  | EmptyString => EmptyString
  | String c s' => if inSet c cutset then TrimLeft s' cutset else s
  end.

(** [strings.IndexRune(s, r)] for a rune below [utf8.RuneSelf], which is
    [strings.IndexByte]. *)
Fixpoint IndexByte (s : string) (c : ascii) : option nat :=
  match s with
  | EmptyString => None
  | String d s' =>
      if Ascii.eqb d c then Some 0
      else match IndexByte s' c with
           | Some i => Some (S i)
           | None => None
           end
  end.

(** [strings.IndexAny(s, chars)] for ASCII [chars] *)
Fixpoint IndexAny (s chars : string) : option nat :=
  match s with
  | EmptyString => None
  | String d s' =>
      if inSet d chars then Some 0
      else match IndexAny s' chars with
           | Some i => Some (S i)
           | None => None
           end
  end.

End GoStrings.

(** The five characters [" \t\n\f\r"] that [fromMetaElement] trims. *)
Definition htmlSpace : string :=
  String " " (String (ascii_of_nat 9) (String (ascii_of_nat 10)
    (String (ascii_of_nat 12) (String (ascii_of_nat 13) EmptyString)))).

(** The cutset ["; \t\n\f\r"] that ends an unquoted value. *)
Definition valueEnd : string := String ";" htmlSpace.

Definition isQuote (q : ascii) : bool :=
  Ascii.eqb q (ascii_of_nat 34) || Ascii.eqb q "'"%char.

(** ** [fromMetaElement] (revision with the local resolver, lines 221-253)

    The [for s != ""] loop of the source; every [continue] is one unit of
    fuel.  [None] means that the fuel ran out before the loop ended. *)
Fixpoint fromMetaElement_loop (fuel : nat) (s : string) : option string :=
  match fuel with
  | O => None
  | S fuel' =>
      match s with
      | EmptyString => Some ""
      | _ =>
          match GoStrings.Index s "charset" with
          | None => Some ""
          | Some csLoc =>
              let s := GoStrings.from (csLoc + GoStrings.len "charset") s in
              let s := GoStrings.TrimLeft s htmlSpace in
              if negb (GoStrings.HasPrefix s "=") then fromMetaElement_loop fuel' s
              else
                let s := GoStrings.from 1 s in
                let s := GoStrings.TrimLeft s htmlSpace in
                match s with
                | EmptyString => Some ""
                | String q s1 =>
                    if isQuote q then
                      match GoStrings.IndexByte s1 q with
                      | None => Some ""
                      | Some closeQuote => Some (GoStrings.upto closeQuote s1)
                      end
                    else
                      let end_ :=
                        match GoStrings.IndexAny s valueEnd with
                        | None => GoStrings.len s
                        | Some e => e
                        end in
                      Some (GoStrings.upto end_ s)
                end
          end
      end
  end.

(** The loop consumes at least one byte per iteration, so [len(s) + 1]
    iterations are enough, as is proved below. *)
Definition fromMetaElement (s : string) : string :=
  match fromMetaElement_loop (S (GoStrings.len s)) s with
  | Some name => name
  | None => ""
  end.

(** ** Bytes *)

Definition byteN (b : byte) : N := Byte.to_N b.

(** the [uint8] with value [n mod 256] *)
Definition byteOf (n : N) : byte :=
  match Byte.of_N (n mod 256) with
  | Some b => b
  | None => x00
  end.

(** [[]byte("...")] and [string(b)] *)
Definition bytesOf (s : string) : list byte := list_byte_of_string s.
Definition stringOf (b : list byte) : string := string_of_list_byte b.

(** Go's [bytes] package *)
Module GoBytes.

(** [bytes.Equal(a, b)] *)
Fixpoint Equal (a b : list byte) : bool :=
  match a, b with
  | [], [] => true
  | x :: a', y :: b' => Byte.eqb x y && Equal a' b'
  | _, _ => false
  end.

(** [bytes.HasPrefix(s, prefix)] *)
Fixpoint HasPrefix (s prefix : list byte) {struct prefix} : bool :=
  match prefix with
  | [] => true
  | p :: prefix' =>
      match s with
      | [] => false
      | c :: s' => Byte.eqb c p && HasPrefix s' prefix'
      end
  end.

End GoBytes.

(** Go's [unicode/utf8] package *)
Module utf8.

(** [utf8.RuneStart(b)]: [b&0xC0 != 0x80] *)
Definition RuneStart (b : byte) : bool :=
  negb (N.land (byteN b) 0xC0 =? 0x80)%N.

(** The [first] table with its accept ranges: for a leading byte, the
    size of the sequence and the range its second byte must lie in. *)
Definition first (b : N) : option (nat * N * N) :=
  (if (b <? 0xC2) then None
   else if (b <=? 0xDF) then Some (2%nat, 0x80, 0xBF)
   else if (b =? 0xE0) then Some (3%nat, 0xA0, 0xBF)
   else if (b =? 0xED) then Some (3%nat, 0x80, 0x9F)
   else if (b <=? 0xEF) then Some (3%nat, 0x80, 0xBF)
   else if (b =? 0xF0) then Some (4%nat, 0x90, 0xBF)
   else if (b <=? 0xF3) then Some (4%nat, 0x80, 0xBF)
   else if (b =? 0xF4) then Some (4%nat, 0x80, 0x8F)
   else None)%N.

Definition inRange (lo hi : N) (c : byte) : bool :=
  ((lo <=? byteN c) && (byteN c <=? hi))%N.

(** [utf8.Valid(p)] *)
Fixpoint Valid (p : list byte) : bool :=
  match p with
  | [] => true
  | p0 :: rest =>
      if (byteN p0 <? 0x80)%N then Valid rest
      else
        match first (byteN p0) with
        | None => false
        | Some (size, lo, hi) =>
            match rest with
            | [] => false
            | c1 :: rest1 =>
                if negb (inRange lo hi c1) then false
                else if (size =? 2)%nat then Valid rest1
                else
                  match rest1 with
                  | [] => false
                  | c2 :: rest2 =>
                      if negb (inRange 0x80 0xBF c2) then false
                      else if (size =? 3)%nat then Valid rest2
                      else
                        match rest2 with
                        | [] => false
                        | c3 :: rest3 =>
                            if negb (inRange 0x80 0xBF c3) then false
                            else Valid rest3
                        end
                  end
            end
        end
  end.

End utf8.

(** ** Errors, panics and readers *)

(** [io.EOF], [io.ErrUnexpectedEOF], and every other error value (a
    failing read of the source, a decoding error). *)
Inductive error : Type :=
| EOF
| ErrUnexpectedEOF
| Failure (what : string).

Definition error_eqb (a b : error) : bool :=
  match a, b with
  | EOF, EOF => true
  | ErrUnexpectedEOF, ErrUnexpectedEOF => true
  | Failure x, Failure y => String.eqb x y
  | _, _ => false
  end.

(** What a call does: it returns, or it panics with a value. *)
Inductive PanicValue : Type :=
| PanicError (err : error)     (* [panic(err)] *)
| NilDereference.              (* a method call on a nil interface *)

Inductive Outcome (A : Type) : Type :=
| Returns (a : A)
| Panics (v : PanicValue).
Arguments Returns {A} a.
Arguments Panics {A} v.

(** An [io.Reader]: the bytes it has yet to deliver, and the error it
    reports once they are delivered ([EOF] for a stream that simply
    ends) and at every read after that.  A reader is a stateful object;
    every operation that reads from it returns its next state, and a
    reader handed back after it was read is handed back in that state. *)
Record Reader : Type := mkReader { pending : list byte; final : error }.

(** [bytes.NewReader(b)], [strings.NewReader(s)] *)
Definition bytes_NewReader (b : list byte) : Reader := mkReader b EOF.

(** [io.MultiReader(a, b)] *)
Definition MultiReader (a b : Reader) : Reader :=
  match final a with
  | EOF => mkReader (pending a ++ pending b) (final b)
  | _ => a
  end.

(** [io.ReadFull(r, buf)]: the count, the buffer afterwards, the error,
    and the reader afterwards. *)
Definition ReadFull (r : Reader) (buf : list byte)
  : nat * list byte * option error * Reader :=
  let got := take (length buf) (pending r) in
  let n := length got in
  let r' := mkReader (drop (length buf) (pending r)) (final r) in
  let err :=
    if (length buf <=? n)%nat then None
    else match n, final r with
         | S _, EOF => Some ErrUnexpectedEOF
         | _, e => Some e
         end in
  (n, got ++ drop n buf, err, r').

(** [ioutil.ReadAll(r)] *)
Definition ReadAll (r : Reader) : list byte * option error :=
  (pending r, match final r with EOF => None | e => Some e end).

(** [make([]byte, n)] *)
Definition make (n : nat) : list byte := repeat x00 n.

(** A decoder, as [transform.NewReader] uses it: the bytes it produces
    for a whole input, and the error it stops with, if any. *)
Definition Decoder : Type := list byte -> list byte * option error.

(** [transform.NewReader(r, d)]: the decoded bytes; the stream ends with
    the decoder's error when it has one, else as [r] ends. *)
Definition transform_NewReader (r : Reader) (d : Decoder) : Reader :=
  match d (pending r) with
  | (out, Some e) => mkReader out e
  | (out, None) => mkReader out (final r)
  end.

(** What the decoder of [charmap.ISO8859_1] computes: byte [b] is the
    code point U+00b, written in UTF-8. *)
Definition latin1Rune (b : byte) : list byte :=
  if (byteN b <? 0x80)%N then [b]
  else [ byteOf (N.lor 0xC0 (N.shiftr (byteN b) 6));
         byteOf (N.lor 0x80 (N.land (byteN b) 0x3F)) ].

Definition decodeLatin1 : Decoder :=
  fun src => (concat (map latin1Rune src), None).

(** ** The HTML tokenizer's output *)

Inductive TokenType : Type :=
| ErrorToken | TextToken | StartTagToken | EndTagToken
| SelfClosingTagToken | CommentToken | DoctypeToken.

(** One token: what [z.Next()] returned, and for a tag what [z.TagName()]
    and the successive [z.TagAttr()] calls deliver. *)
Record Token : Type := mkToken {
  tokType : TokenType;
  TagName : list byte;
  TagAttr : list (list byte * list byte)
}.

(** ** The imported packages *)

Class Library : Type := {
  (** the values of [encoding.Encoding], compared as Go compares
      interface values *)
  Encoding : Type;
  Encoding_eq_dec :: EqDecision Encoding;
  (** [encoding.Nop] and [charmap.ISO8859_1] *)
  Nop : Encoding;
  ISO8859_1 : Encoding;
  (** [e.NewDecoder()] *)
  NewDecoder : Encoding -> Decoder;
  (** [charset.Lookup(label)]; [None] is the pair [(nil, "")] *)
  Lookup : string -> option (Encoding * string);
  (** [html.NewTokenizer(bytes.NewReader(content))]: the tokens that
      [z.Next()] returns in turn; after the last one it returns
      [ErrorToken] *)
  Tokenizer : list byte -> list Token;
  (** [mime.ParseMediaType(v)]; [None] when [err != nil] *)
  ParseMediaType : string -> option (string * gmap string string)
}.

(** ** The meta-tag scanner and the resolver (revision with the local
    resolver) *)

(** The constants [dontKnow], [doNeedPragma], [doNotNeedPragma] *)
Inductive NeedPragma : Type := dontKnow | doNeedPragma | doNotNeedPragma.

(** The [(value, error)] pair a fallible Go function returns *)
Inductive Result (A : Type) : Type :=
| Ok (a : A)
| Err (err : error).
Arguments Ok {A} a.
Arguments Err {A} err.

(** The lookahead cap *)
Definition previewSize : nat := 10 * 1024.

(** The table [boms] *)
Definition boms : list (list byte * string) :=
  [ ([xfe; xff], "utf-16be");
    ([xff; xfe], "utf-16le");
    ([xef; xbb; xbf], "utf-8") ].

(** ['A' <= c && c <= 'Z'] then [c + 0x20], on a [uint8] *)
Definition lowerByte (c : byte) : byte :=
  if ((0x41 <=? byteN c) && (byteN c <=? 0x5A))%N
  then byteOf (byteN c + 0x20)
  else c.

Section Resolver.
Context {lib : Library}.

(** [charset.Lookup] as the two values the source assigns at once *)
Definition lookupPair (label : string) : option Encoding * string :=
  match Lookup label with
  | Some (e, name) => (Some e, name)
  | None => (None, "")
  end.

(** The variables of [prescan] that live across the attributes of one
    meta tag *)
Record MetaState : Type := mkMetaState {
  attrList : gmap string bool;
  gotPragma : bool;
  needPragma : NeedPragma;
  st_e : option Encoding;
  st_name : string
}.

Definition metaInit : MetaState :=
  mkMetaState ∅ false dontKnow None "".

(** One turn of the [for hasAttr] loop *)
Definition attrStep (st : MetaState) (attr : list byte * list byte) : MetaState :=
  let ks := stringOf attr.1 in
  if default false (attrList st !! ks) then st
  else
    let seen := <[ks := true]> (attrList st) in
    let val := map lowerByte attr.2 in
    if String.eqb ks "http-equiv" then
      if GoBytes.Equal val (bytesOf "content-type")
      then mkMetaState seen true (needPragma st) (st_e st) (st_name st)
      else mkMetaState seen (gotPragma st) (needPragma st) (st_e st) (st_name st)
    else if String.eqb ks "content" then
      match st_e st with
      | Some _ => mkMetaState seen (gotPragma st) (needPragma st) (st_e st) (st_name st)
      | None =>
          let name := fromMetaElement (stringOf val) in
          if negb (String.eqb name "") then
            match lookupPair name with
            | (Some e, name) => mkMetaState seen (gotPragma st) doNeedPragma (Some e) name
            | (None, name) => mkMetaState seen (gotPragma st) (needPragma st) None name
            end
          else mkMetaState seen (gotPragma st) (needPragma st) None name
      end
    else if String.eqb ks "charset" then
      let '(e, name) := lookupPair (stringOf val) in
      mkMetaState seen (gotPragma st) doNotNeedPragma e name
    else mkMetaState seen (gotPragma st) (needPragma st) (st_e st) (st_name st).

(** What one meta tag yields after its attributes: [None] is the
    [continue] of the source, [Some] its [return e, name]. *)
Definition metaTag (attrs : list (list byte * list byte)) : option (Encoding * string) :=
  let st := foldl attrStep metaInit attrs in
  let skip :=
    match needPragma st with
    | dontKnow => true
    | doNeedPragma => negb (gotPragma st)
    | doNotNeedPragma => false
    end in
  if skip then None
  else
    let '(e, name) :=
      if GoStrings.HasPrefix (st_name st) "utf-16"
      then (Some Nop, "utf-8")
      else (st_e st, st_name st) in
    match e with
    | Some e => Some (e, name)
    | None => None
    end.

(** The [for] loop of [prescan] over the tokens [z.Next()] returns *)
Fixpoint prescanTokens (tokens : list Token) : option Encoding * string :=
  match tokens with
  | [] => (None, "")
  | t :: rest =>
      match tokType t with
      | ErrorToken => (None, "")
      | StartTagToken | SelfClosingTagToken =>
          if negb (GoBytes.Equal (TagName t) (bytesOf "meta")) then prescanTokens rest
          else
            match metaTag (TagAttr t) with
            | Some (e, name) => (Some e, name)
            | None => prescanTokens rest
            end
      | _ => prescanTokens rest
      end
  end.

Definition prescan (content : list byte) : option Encoding * string :=
  prescanTokens (Tokenizer content).

(** The [for _, b := range boms] loop of [determineEncoding] *)
Fixpoint bomLoop (table : list (list byte * string)) (content : list byte)
  : option (option Encoding * string * bool) :=
  match table with
  | [] => None
  | b :: table' =>
      if GoBytes.HasPrefix content b.1
      then let '(e, name) := lookupPair b.2 in Some (e, name, true)
      else bomLoop table' content
  end.

(** The loop that removes a partial rune at the end: [i] runs from
    [len(content)-1] down while [i >= 0 && i > len(content)-4]. *)
Fixpoint trimLoop (fuel : nat) (content : list byte) (i : Z) : list byte :=
  match fuel with
  | O => content
  | S fuel' =>
      if ((0 <=? i) && (Z.of_nat (length content) - 4 <? i))%Z then
        match content !! Z.to_nat i with
        | None => content
        | Some b =>
            if (byteN b <? 0x80)%N then content
            else if utf8.RuneStart b then take (Z.to_nat i) content
            else trimLoop fuel' content (i - 1)
        end
      else content
  end.

Definition trimPartialRune (content : list byte) : list byte :=
  trimLoop (length content) content (Z.of_nat (length content) - 1).

(** The [hasHighBit] loop with its [break] *)
Fixpoint hasHighBit (content : list byte) : bool :=
  match content with
  | [] => false
  | c :: rest => if (0x80 <=? byteN c)%N then true else hasHighBit rest
  end.

(** [determineEncoding(content, contentType)] *)
Definition determineEncoding (content : list byte) (contentType : string)
  : option Encoding * string * bool :=
  let content :=
    if (previewSize <? length content)%nat then take previewSize content else content in
  match bomLoop boms content with
  | Some found => found
  | None =>
      let declared :=
        match ParseMediaType contentType with
        | Some (_, params) =>
            match params !! "charset" with
            | Some cs =>
                match lookupPair cs with
                | (Some e, name) => Some (Some e, name, true)
                | (None, _) => None
                end
            | None => None
            end
        | None => None
        end in
      match declared with
      | Some found => found
      | None =>
          let scanned :=
            if (0 <? length content)%nat then
              match prescan content with
              | (Some e, name) => Some (Some e, name, false)
              | (None, _) => None
              end
            else None in
          match scanned with
          | Some found => found
          | None =>
              let content := trimPartialRune content in
              if hasHighBit content && utf8.Valid content
              then (Some Nop, "utf-8", false)
              else (Some ISO8859_1, "ISO 8859-1", false)
          end
      end
  end.

(** [newReader(r, contentType)]: the caller's [r] after the call, and
    what the call did. *)
Definition newReader (r : Reader) (contentType : string)
  : Reader * Outcome (Result Reader) :=
  let '(n, preview, err, r) := ReadFull r (make previewSize) in
  let primed :=
    match err with
    | Some ErrUnexpectedEOF => Ok (take n preview)
    | Some err => Err err
    | None => Ok preview
    end in
  match primed with
  | Err err => (r, Returns (Err err))
  | Ok preview =>
      let r' := MultiReader (bytes_NewReader preview) r in
      match determineEncoding preview contentType with
      | (Some e, _, _) =>
          if decide (e = Nop) then (r, Returns (Ok r'))
          else (r, Returns (Ok (transform_NewReader r' (NewDecoder e))))
      | (None, _, _) => (r, Panics NilDereference)
      end
  end.

End Resolver.

(** ** The three revisions of [NewReader] *)

(** [bom[0] != 0xef || bom[1] != 0xbb || bom[2] != 0xbf] *)
Definition notUTF8BOM (bom : list byte) : bool :=
  match bom with
  | b0 :: b1 :: b2 :: _ =>
      negb (Byte.eqb b0 xef) || negb (Byte.eqb b1 xbb) || negb (Byte.eqb b2 xbf)
  | _ => true
  end.

(** The block after [// discarding the utf-8 BOM mark] in the two earlier
    revisions. *)
Definition discardBOM (nr : Reader) : Outcome Reader :=
  let '(n, bom, err, nr) := ReadFull nr (make 3) in
  let early :=
    match err with
    | Some err =>
        if negb (error_eqb err EOF) && negb (error_eqb err ErrUnexpectedEOF)
        then Some (Panics (PanicError err))
        else if (n <? length bom)%nat
             then Some (Returns (bytes_NewReader (take n bom)))
             else None
    | None => None
    end in
  match early with
  | Some out => out
  | None =>
      if notUTF8BOM bom
      then Returns (MultiReader (bytes_NewReader bom) nr)
      else Returns nr
  end.

(** The same block in the current [txtopener.go]. *)
Definition discardBOM_current (nr : Reader) : Outcome Reader :=
  let '(n, bom, err, nr) := ReadFull nr (make 3) in
  let early :=
    match err with
    | Some err =>
        if (n <? length bom)%nat then Some (Returns nr)
        else if negb (error_eqb err EOF)
             then Some (Panics (PanicError err))
             else None
    | None => None
    end in
  match early with
  | Some out => out
  | None =>
      if notUTF8BOM bom
      then Returns (MultiReader (bytes_NewReader bom) nr)
      else Returns nr
  end.

(** The head of [NewReader], common to the three revisions: [open] is
    [charset.NewReader] or the local [newReader]. *)
Definition NewReaderWith
    (open : Reader -> string -> Reader * Outcome (Result Reader))
    (discard : Reader -> Outcome Reader) (r : Reader) : Outcome Reader :=
  match open r "" with
  | (_, Panics v) => Panics v
  | (r, Returns (Err err)) =>
      if error_eqb err EOF then Returns r else Panics (PanicError err)
  | (_, Returns (Ok nr)) => discard nr
  end.

(** An open file: its content as a reader, and what [Sync] and [Close]
    report. *)
Record File : Type := mkFile {
  fileReader : Reader;
  fileSync : option error;
  fileClose : option error
}.

(** The closure [MustOpenAndClose] returns, when called *)
Definition syncAndClose (file : File) : Outcome unit :=
  match fileSync file with
  | Some err => Panics (PanicError err)
  | None =>
      match fileClose file with
      | Some err => Panics (PanicError err)
      | None => Returns tt
      end
  end.

(** Revision with the local resolver: [NewReader] calls [newReader]. *)
Module Local.
Section Local.
Context {lib : Library}.

Definition NewReader : Reader -> Outcome Reader :=
  NewReaderWith newReader discardBOM.

End Local.
End Local.

(** Earliest revision: [NewReader] calls [charset.NewReader]. *)
Module Earlier.
Section Earlier.
Variable charset_NewReader : Reader -> string -> Reader * Outcome (Result Reader).

Definition NewReader : Reader -> Outcome Reader :=
  NewReaderWith charset_NewReader discardBOM.

End Earlier.
End Earlier.

(** The current [txtopener.go]. *)
Module Current.
Section Current.
Variable charset_NewReader : Reader -> string -> Reader * Outcome (Result Reader).
Variable os_Open : string -> Result File.

Definition NewReader : Reader -> Outcome Reader :=
  NewReaderWith charset_NewReader discardBOM_current.

Definition Open (name : string) : Outcome (Result Reader) :=
  match os_Open name with
  | Err err => Returns (Err err)
  | Ok file =>
      match NewReader (fileReader file) with
      | Returns r => Returns (Ok r)
      | Panics v => Panics v
      end
  end.

Definition MustOpen (name : string) : Outcome Reader :=
  match Open name with
  | Returns (Ok file) => Returns file
  | Returns (Err err) => Panics (PanicError err)
  | Panics v => Panics v
  end.

Definition MustOpenAndClose (name : string) : Outcome (Reader * Outcome unit) :=
  match os_Open name with
  | Err err => Panics (PanicError err)
  | Ok file =>
      match NewReader (fileReader file) with
      | Returns r => Returns (r, syncAndClose file)
      | Panics v => Panics v
      end
  end.

End Current.
End Current.

(** ** A small instance of the imported packages

    A registry of four labels, a tokenizer that knows a handful of
    documents and takes every other input for text, and a media-type
    parser that knows two headers.  It serves to run the definitions on
    concrete inputs. *)
Module Demo.

Inductive DemoEncoding : Type :=
| demoNop
| demoLatin1
| demoUTF16 (bigEndian : bool).

#[global] Instance DemoEncoding_eq_dec : EqDecision DemoEncoding.
Proof. solve_decision. Defined.

(** UTF-8 for a code point below 0x10000 *)
Definition encodeRune (cp : N) : list byte :=
  if (cp <? 0x80)%N then [byteOf cp]
  else if (cp <? 0x800)%N then
    [ byteOf (N.lor 0xC0 (N.shiftr cp 6)); byteOf (N.lor 0x80 (N.land cp 0x3F)) ]
  else
    [ byteOf (N.lor 0xE0 (N.shiftr cp 12));
      byteOf (N.lor 0x80 (N.land (N.shiftr cp 6) 0x3F));
      byteOf (N.lor 0x80 (N.land cp 0x3F)) ].

(** UTF-16 restricted to the basic plane, one code unit per rune; an odd
    byte at the end and surrogates become U+FFFD. *)
Fixpoint decodeUTF16 (bigEndian : bool) (src : list byte) : list byte :=
  match src with
  | [] => []
  | [_] => encodeRune 0xFFFD
  | b0 :: b1 :: rest =>
      let u := if bigEndian then (byteN b0 * 256 + byteN b1)%N
               else (byteN b1 * 256 + byteN b0)%N in
      (if ((0xD800 <=? u) && (u <=? 0xDFFF))%N then encodeRune 0xFFFD else encodeRune u)
        ++ decodeUTF16 bigEndian rest
  end.

Definition demoDecoder (e : DemoEncoding) : Decoder :=
  match e with
  | demoNop => fun src => (src, None)
  | demoLatin1 => decodeLatin1
  | demoUTF16 be => fun src => (decodeUTF16 be src, None)
  end.

Definition demoLookup (label : string) : option (DemoEncoding * string) :=
  if String.eqb label "utf-8" then Some (demoNop, "utf-8")
  else if String.eqb label "utf-16be" then Some (demoUTF16 true, "utf-16be")
  else if String.eqb label "utf-16le" then Some (demoUTF16 false, "utf-16le")
  else if String.eqb label "utf-16" then Some (demoUTF16 false, "utf-16le")
  else if String.eqb label "iso-8859-1" then Some (demoLatin1, "iso-8859-1")
  else None.

Definition metaToken (attrs : list (string * string)) : Token :=
  mkToken StartTagToken (bytesOf "meta")
    (map (fun kv => (bytesOf kv.1, bytesOf kv.2)) attrs).

Definition textToken : Token := mkToken TextToken [] [].

Definition demoDocs : list (string * list Token) :=
  [ ("<meta charset='utf-16'>", [metaToken [("charset", "utf-16")]]);
    ("<meta charset='ISO-8859-1'>", [metaToken [("charset", "ISO-8859-1")]]);
    ("<meta content='text/html; charset=iso-8859-1' http-equiv='Content-Type'>",
     [metaToken [("content", "text/html; charset=iso-8859-1");
                 ("http-equiv", "Content-Type")]]);
    ("<meta content='text/html; charset=iso-8859-1'>",
     [metaToken [("content", "text/html; charset=iso-8859-1")]]) ].

Fixpoint demoFind (docs : list (string * list Token)) (content : list byte)
  : option (list Token) :=
  match docs with
  | [] => None
  | d :: docs' =>
      if GoBytes.Equal content (bytesOf d.1) then Some d.2 else demoFind docs' content
  end.

Definition demoTokenizer (content : list byte) : list Token :=
  match demoFind demoDocs content with
  | Some tokens => tokens
  | None => match content with [] => [] | _ => [textToken] end
  end.

Definition demoParseMediaType (v : string) : option (string * gmap string string) :=
  if String.eqb v "text/html; charset=utf-8"
  then Some ("text/html", {[ "charset" := "utf-8" ]})
  else if String.eqb v "text/html"
  then Some ("text/html", ∅)
  else None.

#[global] Instance demoLib : Library := {|
  Encoding := DemoEncoding;
  Nop := demoNop;
  ISO8859_1 := demoLatin1;
  NewDecoder := demoDecoder;
  Lookup := demoLookup;
  Tokenizer := demoTokenizer;
  ParseMediaType := demoParseMediaType
|}.

(** [charset.NewReader] played by the local copy of it *)
Definition demoOpen : Reader -> string -> Reader * Outcome (Result Reader) :=
  newReader.

(** A file system with one file, whose first read fails, and no other *)
Definition brokenFile : File :=
  mkFile (mkReader [] (Failure "read error")) None None.

Definition demoOsOpen (name : string) : Result File :=
  if String.eqb name "broken.txt" then Ok brokenFile
  else Err (Failure "no such file").

End Demo.

(** ** Auxiliary definitions used in the statements *)

Section Statements.
Context {lib : Library}.

(** What [newReader] does once the lookahead is primed. *)
Definition resolved (r : Reader) (contentType : string) : Outcome (Result Reader) :=
  match determineEncoding (take previewSize (pending r)) contentType with
  | (Some e, _, _) =>
      if decide (e = Nop) then Returns (Ok r)
      else Returns (Ok (transform_NewReader r (NewDecoder e)))
  | (None, _, _) => Panics NilDereference
  end.

(** The bytes a call of [NewReader] hands back when read to the end:
    [None] when the call panics. *)
Definition output (call : Outcome Reader) : option (list byte * option error) :=
  match call with
  | Returns r => Some (ReadAll r)
  | Panics _ => None
  end.

End Statements.

(** The UTF-8 byte order mark *)
Definition utf8bom : list byte := [xef; xbb; xbf].

(** [NewReader] of the revision with the local resolver, with the
    demonstration instance, on the bytes [feed], read to the end *)
Definition runDemo (feed : list byte) : option (list byte * option error) :=
  output (Local.NewReader (lib := Demo.demoLib) (bytes_NewReader feed)).

(** ["pingüino"] in UTF-8 *)
Definition pinguino : list byte :=
  [x70; x69; x6e; x67; xc3; xbc; x69; x6e; x6f].

(** Every byte is below 0x80. *)
Definition allASCII (content : list byte) : bool :=
  forallb (fun b => (byteN b <? 0x80)%N) content.

(** ** The resolver as a list of ordered rules

    The five rules of the resolver, each written as a condition on the
    lookahead; the loops of [determineEncoding] are shown to compute
    this. *)

#[global] Instance byte_eq_dec : EqDecision byte := Byte.byte_eq_dec.

(** [content] begins with the signature [sig]. *)
Definition startsWith (sig content : list byte) : bool :=
  bool_decide (take (length sig) content = sig).

(** Rule 1: the label of the byte order mark at the head of the content *)
Definition bomLabel (content : list byte) : option string :=
  if startsWith [xfe; xff] content then Some "utf-16be"
  else if startsWith [xff; xfe] content then Some "utf-16le"
  else if startsWith [xef; xbb; xbf] content then Some "utf-8"
  else None.

(** Rule 4, first half: walk back from the end over at most [n] bytes;
    stop without a cut at an ASCII byte, cut in front of the first
    rune-start byte met.  The argument is the content reversed, and so is
    the result. *)
Fixpoint scanBack (n : nat) (reversed : list byte) : option (list byte) :=
  match n, reversed with
  | S n', b :: before =>
      if (byteN b <? 0x80)%N then None
      else if utf8.RuneStart b then Some before
      else scanBack n' before
  | _, _ => None
  end.

Definition trimmed (content : list byte) : list byte :=
  match scanBack 3 (rev content) with
  | Some before => rev before
  | None => content
  end.

Section Rules.
Context {lib : Library}.

(** Rule 2: the charset parameter of the declared content type, when the
    registry knows it *)
Definition declaredCharset (contentType : string) : option (Encoding * string) :=
  match ParseMediaType contentType with
  | Some (_, params) =>
      match params !! "charset" with
      | Some cs => Lookup cs
      | None => None
      end
  | None => None
  end.

(** Rule 3: the encoding the meta-tag scan accepts *)
Definition acceptedMeta (content : list byte) : option (Encoding * string) :=
  match content with
  | [] => None
  | _ =>
      match prescan content with
      | (Some e, name) => Some (e, name)
      | (None, _) => None
      end
  end.

Definition resolveRules (content : list byte) (contentType : string)
  : option Encoding * string * bool :=
  let lookahead := take previewSize content in
  match bomLabel lookahead with
  | Some label => (lookupPair label, true)
  | None =>
      match declaredCharset contentType with
      | Some (e, name) => (Some e, name, true)
      | None =>
          match acceptedMeta lookahead with
          | Some (e, name) => (Some e, name, false)
          | None =>
              if existsb (fun b => (0x80 <=? byteN b)%N) (trimmed lookahead)
                 && utf8.Valid (trimmed lookahead)
              then (Some Nop, "utf-8", false)
              else (Some ISO8859_1, "ISO 8859-1", false)
          end
      end
  end.

End Rules.

(** ** Assumptions about the imported packages, named

    Facts about [charset], [mime] and [charmap] that some statements
    need; each is a hypothesis of the statements that use it. *)

Section Assumptions.
Context {lib : Library}.

(** The decoder of [charmap.ISO8859_1] is [decodeLatin1]. *)
Definition latin1Decoder : Prop := forall src, NewDecoder ISO8859_1 src = decodeLatin1 src.

(** [NewReader] passes the empty content type, which
    [mime.ParseMediaType] rejects ("mime: no media type"). *)
Definition noMediaType : Prop := ParseMediaType "" = None.

(** The two-byte marks are registered and their decoders report no
    error. *)
Definition utf16Registered : Prop :=
  forall label, label = "utf-16be" \/ label = "utf-16le" ->
    exists e name, Lookup label = Some (e, name)
                   /\ forall src, (NewDecoder e src).2 = None.

End Assumptions.

(** ** The charset micro-parser as the specification words it *)

(** The longest prefix of [s] with no character that [stop] holds of *)
Fixpoint before (stop : ascii -> bool) (s : string) : string :=
  match s with
  | EmptyString => EmptyString
  | String c s' => if stop c then EmptyString else String c (before stop s')
  end.

Fixpoint occurs (c : ascii) (s : string) : bool :=
  match s with
  | EmptyString => false
  | String d s' => Ascii.eqb d c || occurs c s'
  end.

(** The value at the head of [s]: quoted and closed by the same quote, or
    bare and ended by white space or [;]; empty when the quote is never
    closed. *)
Definition readValue (s : string) : string :=
  match s with
  | EmptyString => EmptyString
  | String q s' =>
      if isQuote q then
        if occurs q s' then before (fun c => Ascii.eqb c q) s' else EmptyString
      else before (fun c => GoStrings.inSet c valueEnd) s
  end.

(** What follows the first ["charset"] in [s], white space skipped *)
Definition afterCharset (s : string) : option string :=
  match GoStrings.Index s "charset" with
  | Some csLoc =>
      Some (GoStrings.TrimLeft (GoStrings.from (csLoc + GoStrings.len "charset") s) htmlSpace)
  | None => None
  end.

(** The parser in one pass: find ["charset"], skip white space, require
    [=], skip white space, read the value; empty when [=] is missing. *)
Definition fromMetaElement_onePass (s : string) : string :=
  match afterCharset s with
  | Some rest =>
      if GoStrings.HasPrefix rest "="
      then readValue (GoStrings.TrimLeft (GoStrings.from 1 rest) htmlSpace)
      else EmptyString
  | None => EmptyString
  end.

(** ** Vocabulary for the statements about meta tags *)




Section MetaVocabulary.
Context {lib : Library}.

(** The variables of [prescan] after the attributes of a tag *)
Definition afterAttrs (attrs : list (list byte * list byte)) : MetaState :=
  foldl attrStep metaInit attrs.

(** The tag is not passed over by the pragma test. *)
Definition pragmaSatisfied (st : MetaState) : bool :=
  match needPragma st with
  | dontKnow => false
  | doNeedPragma => gotPragma st
  | doNotNeedPragma => true
  end.

(** A registry entry as [prescan] returns it: the no-op encoding under
    the name ["utf-8"] for a name that begins with ["utf-16"] *)
Definition recode (found : Encoding * string) : Encoding * string :=
  if GoStrings.HasPrefix found.2 "utf-16" then (Nop, "utf-8") else found.


(** A token that [prescan] passes over *)
Definition passedOver (t : Token) : Prop :=
  tokType t <> ErrorToken
  /\ (GoBytes.Equal (TagName t) (bytesOf "meta") = true -> metaTag (TagAttr t) = None).

End MetaVocabulary.

(** ** Vocabulary for the further properties *)

(** [r] occurs in [s] as a run of consecutive bytes. *)
Definition substringOf (r s : string) : Prop :=
  exists pre post, s = pre +:+ r +:+ post.

(** Every character of [s] satisfies [p]. *)
Fixpoint allChars (p : ascii -> bool) (s : string) : bool :=
  match s with
  | EmptyString => true
  | String c s' => p c && allChars p s'
  end.

Definition isHtmlSpace (c : ascii) : bool := GoStrings.inSet c htmlSpace.

Definition endsValue (c : ascii) : bool := GoStrings.inSet c valueEnd.

(** [s] is empty or begins with a character that ends an unquoted value. *)
Definition valueStops (s : string) : bool :=
  match s with
  | EmptyString => true
  | String c _ => endsValue c
  end.

(** The attributes of a tag without those whose name came earlier in the
    tag; [seen] holds the names met so far. *)
Fixpoint firstOccurrences (seen : list string) (attrs : list (list byte * list byte))
  : list (list byte * list byte) :=
  match attrs with
  | [] => []
  | a :: attrs' =>
      if bool_decide (stringOf a.1 ∈ seen) then firstOccurrences seen attrs'
      else a :: firstOccurrences (stringOf a.1 :: seen) attrs'
  end.

(** Two attributes with the same name whose values differ at most in the
    case of ASCII letters *)
Definition sameUpToCase (a b : list byte * list byte) : Prop :=
  a.1 = b.1 /\ map lowerByte a.2 = map lowerByte b.2.

(** A start tag or self-closing tag named [meta] *)
Definition isMetaTag (t : Token) : bool :=
  match tokType t with
  | StartTagToken | SelfClosingTagToken => GoBytes.Equal (TagName t) (bytesOf "meta")
  | _ => false
  end.

(** The tokens [prescan] looks at: the error token and the meta tags *)
Definition scanned (t : Token) : bool :=
  match tokType t with
  | ErrorToken => true
  | _ => isMetaTag t
  end.

(** A byte that continues a UTF-8 sequence: [utf8.RuneStart] is false. *)
Definition isContinuation (c : byte) : bool := negb (utf8.RuneStart c).

(** A byte at or above 0x80 *)
Definition isHigh (c : byte) : bool := (0x80 <=? byteN c)%N.

(** The tail that the trimming loop removes, when it removes one: a
    rune-start byte at or above 0x80 and the continuation bytes after it *)
Definition runeTail (suffix : list byte) : Prop :=
  match suffix with
  | [] => True
  | b :: conts =>
      isHigh b = true /\ utf8.RuneStart b = true
      /\ forallb isContinuation conts = true
  end.

(** [p] without a UTF-8 byte order mark at its head *)
Definition stripUTF8BOM (p : list byte) : list byte :=
  if startsWith utf8bom p then drop 3 p else p.

(** The first read of [newReader] fails: the source has fewer bytes than
    the lookahead and ends with an error other than the end of a
    non-empty stream. *)
Definition primingFails (r : Reader) : bool :=
  (length (pending r) <? previewSize)%nat
  && match pending r, final r with
     | _ :: _, EOF => false
     | _, ErrUnexpectedEOF => false
     | _, _ => true
     end.

Section MoreAssumptions.
Context {lib : Library}.

(** No decoder of the registry reports an error. *)
Definition decodersNeverFail : Prop := forall e src, (NewDecoder e src).2 = None.

(** The registry knows the labels of the table [boms]. *)
Definition bomsRegistered : Prop :=
  forall sig label, (sig, label) ∈ boms -> Lookup label <> None.

End MoreAssumptions.

(** ** [equalSlice] of the test file

    The loop [for i := range a] with its index; [count] is the number of
    turns left.  [b[i]] is in range because the lengths were compared
    first; the branch for an index out of range is never taken. *)
Fixpoint equalSliceLoop (count i : nat) (a b : list byte) : bool :=
  match count with
  | O => true
  | S count' =>
      match a !! i, b !! i with
      | Some x, Some y =>
          if negb (Byte.eqb x y) then false else equalSliceLoop count' (S i) a b
      | _, _ => false
      end
  end.

Definition equalSlice (a b : list byte) : bool :=
  if negb (length a =? length b)%nat then false
  else equalSliceLoop (length a) 0 a b.

(** ** A registry whose ["utf-8"] entry decodes

    The instance of [Demo] with one change: the label ["utf-8"] is
    registered with an encoding of its own, whose decoder copies
    well-formed UTF-8 and writes U+FFFD for every byte that does not
    begin a well-formed sequence. *)
Module Replacing.

Inductive ReplacingEncoding : Type :=
| replNop
| replLatin1
| replUTF8.

#[global] Instance ReplacingEncoding_eq_dec : EqDecision ReplacingEncoding.
Proof. solve_decision. Defined.

(** U+FFFD in UTF-8 *)
Definition replacement : list byte := [xef; xbf; xbd].

Fixpoint decodeUTF8 (src : list byte) : list byte :=
  match src with
  | [] => []
  | p0 :: rest =>
      if (byteN p0 <? 0x80)%N then p0 :: decodeUTF8 rest
      else
        match utf8.first (byteN p0) with
        | None => replacement ++ decodeUTF8 rest
        | Some (size, lo, hi) =>
            match rest with
            | [] => replacement
            | c1 :: rest1 =>
                if negb (utf8.inRange lo hi c1) then replacement ++ decodeUTF8 rest
                else if (size =? 2)%nat then p0 :: c1 :: decodeUTF8 rest1
                else
                  match rest1 with
                  | [] => replacement ++ decodeUTF8 rest
                  | c2 :: rest2 =>
                      if negb (utf8.inRange 0x80 0xBF c2) then replacement ++ decodeUTF8 rest
                      else if (size =? 3)%nat then p0 :: c1 :: c2 :: decodeUTF8 rest2
                      else
                        match rest2 with
                        | [] => replacement ++ decodeUTF8 rest
                        | c3 :: rest3 =>
                            if negb (utf8.inRange 0x80 0xBF c3)
                            then replacement ++ decodeUTF8 rest
                            else p0 :: c1 :: c2 :: c3 :: decodeUTF8 rest3
                        end
                  end
            end
        end
  end.

Definition replacingDecoder (e : ReplacingEncoding) : Decoder :=
  match e with
  | replNop => fun src => (src, None)
  | replLatin1 => decodeLatin1
  | replUTF8 => fun src => (decodeUTF8 src, None)
  end.

Definition replacingLookup (label : string) : option (ReplacingEncoding * string) :=
  if String.eqb label "utf-8" then Some (replUTF8, "utf-8")
  else if String.eqb label "iso-8859-1" then Some (replLatin1, "iso-8859-1")
  else None.

Definition replacingLib : Library := {|
  Encoding := ReplacingEncoding;
  Nop := replNop;
  ISO8859_1 := replLatin1;
  NewDecoder := replacingDecoder;
  Lookup := replacingLookup;
  Tokenizer := Demo.demoTokenizer;
  ParseMediaType := Demo.demoParseMediaType
|}.

End Replacing.

(** The 256 bytes *)
Definition allBytes : list byte := map byteOf (map N.of_nat (seq 0 256)).

Section LatinAssumption.
Context {lib : Library}.

(** [charmap.ISO8859_1] and [encoding.Nop] are two values. *)
Definition latin1IsNotNop : Prop := ISO8859_1 <> Nop.

End LatinAssumption.

(** * Properties *)

Example fromMetaElement_ex1 :
  fromMetaElement "text/html; charset=windows-1252" = "windows-1252".
Proof. reflexivity. Qed.

Example fromMetaElement_ex2 :
  fromMetaElement "text/html; charset = 'utf-8' ; x" = "utf-8".
Proof. reflexivity. Qed.

Example fromMetaElement_ex3 : fromMetaElement "charset charset=x" = "x".
Proof. reflexivity. Qed.

(** ** The cases of [TestNewReader], on the demonstration instance *)

Example test_empty : runDemo [] = Some ([], None).
Proof. vm_compute. reflexivity. Qed.

Example test_a : runDemo (bytesOf "a") = Some (bytesOf "a", None).
Proof. vm_compute. reflexivity. Qed.

Example test_ab : runDemo (bytesOf "ab") = Some (bytesOf "ab", None).
Proof. vm_compute. reflexivity. Qed.

Example test_abc : runDemo (bytesOf "abc") = Some (bytesOf "abc", None).
Proof. vm_compute. reflexivity. Qed.

Example test_abcd : runDemo (bytesOf "abcd") = Some (bytesOf "abcd", None).
Proof. vm_compute. reflexivity. Qed.

Example test_Leonardo : runDemo (bytesOf "Leonardo") = Some (bytesOf "Leonardo", None).
Proof. vm_compute. reflexivity. Qed.

Example test_pinguino : runDemo pinguino = Some (pinguino, None).
Proof. vm_compute. reflexivity. Qed.

Example test_utf8bom : runDemo utf8bom = Some ([], None).
Proof. vm_compute. reflexivity. Qed.

Example test_utf8bom_pinguino :
  runDemo (utf8bom ++ pinguino) = Some (pinguino, None).
Proof. vm_compute. reflexivity. Qed.

Example test_utf16lebom : runDemo [xff; xfe] = Some ([], None).
Proof. vm_compute. reflexivity. Qed.

Example test_utf16bebom : runDemo [xfe; xff] = Some ([], None).
Proof. vm_compute. reflexivity. Qed.

(** ** Readers *)

Lemma length_make (k : nat) : length (make k) = k.
Proof. apply repeat_length. Qed.

Lemma ReadFull_enough (r : Reader) (k : nat) :
  k <= length (pending r) ->
  ReadFull r (make k)
  = (k, take k (pending r), None, mkReader (drop k (pending r)) (final r)).
Proof.
  intros Hk. unfold ReadFull. rewrite length_make.
  rewrite length_take, Nat.min_l by lia.
  replace (drop k (make k)) with (@nil byte)
    by (symmetry; apply drop_ge; rewrite length_make; lia).
  rewrite app_nil_r.
  destruct (Nat.leb_spec k k) as [_|?]; [reflexivity|lia].
Qed.

Lemma ReadFull_short (r : Reader) (k : nat) :
  length (pending r) < k ->
  ReadFull r (make k)
  = (length (pending r),
     pending r ++ drop (length (pending r)) (make k),
     Some (match pending r, final r with
           | _ :: _, EOF => ErrUnexpectedEOF
           | _, e => e
           end),
     mkReader [] (final r)).
Proof.
  intros Hk. unfold ReadFull. rewrite length_make.
  rewrite (take_ge (pending r) k) by lia.
  rewrite (drop_ge (pending r) k) by lia.
  destruct (Nat.leb_spec k (length (pending r))) as [?|_]; [lia|].
  destruct (pending r) as [|b l]; [reflexivity|].
  cbn [length]. destruct (final r); reflexivity.
Qed.

Section ReaderFacts.
Context {lib : Library}.

Lemma newReader_full (r : Reader) (contentType : string) :
  previewSize <= length (pending r) ->
  final r = EOF ->
  newReader r contentType
  = (mkReader (drop previewSize (pending r)) EOF, resolved r contentType).
Proof.
  intros Hlen Hfin. unfold newReader, resolved.
  rewrite ReadFull_enough by exact Hlen.
  unfold MultiReader, bytes_NewReader. cbn [final pending].
  rewrite Hfin, take_drop.
  destruct r as [p f]; cbn [pending final] in *; subst f.
  destruct (determineEncoding (take previewSize p) contentType) as [[[e|] name] certain];
    [destruct (decide (e = Nop))|]; reflexivity.
Qed.

Lemma newReader_partial (r : Reader) (contentType : string) :
  0 < length (pending r) < previewSize ->
  final r = EOF ->
  newReader r contentType = (mkReader [] EOF, resolved r contentType).
Proof.
  intros [Hpos Hlen] Hfin. unfold newReader, resolved.
  rewrite ReadFull_short by exact Hlen.
  destruct r as [p f]; cbn [pending final] in *; subst f.
  destruct p as [|b p]; [cbn in Hpos; lia|].
  rewrite take_app_length.
  rewrite (take_ge (b :: p)) by lia.
  unfold MultiReader, bytes_NewReader. cbn [final pending].
  rewrite app_nil_r.
  destruct (determineEncoding (b :: p) contentType) as [[[e|] name] certain];
    [destruct (decide (e = Nop))|]; reflexivity.
Qed.

Lemma newReader_failing (r : Reader) (contentType : string) :
  length (pending r) < previewSize ->
  match pending r, final r with
  | _ :: _, EOF => False
  | _, ErrUnexpectedEOF => False
  | _, _ => True
  end ->
  newReader r contentType = (mkReader [] (final r), Returns (Err (final r))).
Proof.
  intros Hlen Hfail. unfold newReader.
  rewrite ReadFull_short by exact Hlen.
  destruct (pending r) as [|b p], (final r); try contradiction; reflexivity.
Qed.

End ReaderFacts.

(** ** The block that discards the byte order mark *)

Lemma discardBOM_bom (rest : list byte) (fin : error) :
  discardBOM (mkReader (utf8bom ++ rest) fin) = Returns (mkReader rest fin).
Proof. reflexivity. Qed.

Lemma discardBOM_current_bom (rest : list byte) (fin : error) :
  discardBOM_current (mkReader (utf8bom ++ rest) fin) = Returns (mkReader rest fin).
Proof. reflexivity. Qed.

Lemma discardBOM_other (p : list byte) :
  3 <= length p -> notUTF8BOM p = true ->
  discardBOM (bytes_NewReader p) = Returns (bytes_NewReader p).
Proof.
  intros Hlen Hbom.
  destruct p as [|a [|b [|c p]]]; cbn in Hlen; try lia.
  unfold discardBOM. rewrite ReadFull_enough by (cbn; lia).
  change (notUTF8BOM (a :: b :: c :: p)) with (notUTF8BOM [a; b; c]) in Hbom.
  cbn -[notUTF8BOM]. rewrite take_0, drop_0. cbn -[notUTF8BOM].
  rewrite Hbom. reflexivity.
Qed.

Lemma discardBOM_short (p : list byte) :
  length p < 3 ->
  discardBOM (bytes_NewReader p) = Returns (bytes_NewReader p).
Proof.
  intros Hlen.
  destruct p as [|a [|b [|c p]]]; cbn in Hlen; try lia; reflexivity.
Qed.

Lemma discardBOM_current_short (p : list byte) (fin : error) :
  length p < 3 ->
  discardBOM_current (mkReader p fin) = Returns (mkReader [] fin).
Proof.
  intros Hlen.
  destruct p as [|a [|b [|c p]]]; cbn in Hlen; try lia;
    destruct fin; reflexivity.
Qed.

(** ** The resolver *)

Lemma previewSize_value : Z.of_nat previewSize = 10240%Z.
Proof. unfold previewSize. lia. Qed.

Lemma previewSize_ge : 3 <= previewSize.
Proof. pose proof previewSize_value. lia. Qed.

Lemma byte_eqb_eq (a b : byte) : Byte.eqb a b = true <-> a = b.
Proof. split; [apply Byte.byte_dec_bl | apply Byte.byte_dec_lb]. Qed.


Lemma GoBytes_HasPrefix_startsWith (content sig : list byte) :
  GoBytes.HasPrefix content sig = startsWith sig content.
Proof.
  unfold startsWith. revert content.
  induction sig as [|p sig IH]; intros content.
  - cbn. symmetry. apply bool_decide_eq_true_2. reflexivity.
  - destruct content as [|c content]; cbn [GoBytes.HasPrefix].
    + symmetry. apply bool_decide_eq_false_2. cbn. congruence.
    + rewrite IH. cbn [length take].
      destruct (Byte.eqb c p) eqn:Hcp; cbn [andb].
      * apply byte_eqb_eq in Hcp. subst c.
        apply bool_decide_ext. split; [intros ->|intros [= ->]]; reflexivity.
      * symmetry. apply bool_decide_eq_false_2. intros [= -> _].
        rewrite (proj2 (byte_eqb_eq p p) eq_refl) in Hcp. discriminate.
Qed.

Lemma capped_take (content : list byte) :
  (if (previewSize <? length content)%nat then take previewSize content else content)
  = take previewSize content.
Proof.
  destruct (Nat.ltb_spec previewSize (length content)); [reflexivity|].
  symmetry. apply take_ge. lia.
Qed.

Lemma scanBack_nil (n : nat) : scanBack n [] = None.
Proof. destruct n; reflexivity. Qed.

Section ResolverFacts.
Context {lib : Library}.

Lemma bomLoop_bomLabel (content : list byte) :
  bomLoop boms content
  = match bomLabel content with
    | Some label => Some (lookupPair label, true)
    | None => None
    end.
Proof.
  unfold boms, bomLabel. cbn [bomLoop fst snd].
  rewrite !GoBytes_HasPrefix_startsWith.
  repeat match goal with
         | |- context [startsWith ?sig content] => destruct (startsWith sig content)
         | |- context [lookupPair ?l] => destruct (lookupPair l)
         end; reflexivity.
Qed.

Lemma hasHighBit_existsb (content : list byte) :
  hasHighBit content = existsb (fun b => (0x80 <=? byteN b)%N) content.
Proof.
  induction content as [|c content IH]; [reflexivity|]. cbn.
  destruct (0x80 <=? byteN c)%N; [reflexivity|exact IH].
Qed.

Lemma trimLoop_scanBack (fuel : nat) :
  forall front back : list byte,
    length front <= fuel ->
    trimLoop fuel (front ++ back) (Z.of_nat (length front) - 1)
    = match scanBack (3 - length back) (rev front) with
      | Some before => rev before
      | None => front ++ back
      end.
Proof.
  induction fuel as [|fuel IH]; intros front back Hfuel.
  - destruct front; [|cbn in Hfuel; lia]. cbn. now rewrite scanBack_nil.
  - destruct front as [|b0 front0] using rev_ind.
    + cbn. now rewrite scanBack_nil.
    + clear IHfront0. rename front0 into front, b0 into b.
      rewrite length_app in *. cbn [length] in *.
      rewrite rev_unit. cbn [trimLoop].
      replace (Z.of_nat (length front + 1) - 1)%Z with (Z.of_nat (length front)) by lia.
      rewrite Nat2Z.id.
      rewrite !length_app. cbn [length].
      destruct (Z.leb_spec 0 (Z.of_nat (length front))) as [_|?]; [|lia].
      cbn [andb].
      destruct (Z.ltb_spec (Z.of_nat (length front + 1 + length back) - 4)
                  (Z.of_nat (length front))) as [Hlt|Hge].
      * replace ((front ++ [b]) ++ back) with (front ++ b :: back)
          by (now rewrite <- app_assoc).
        rewrite list_lookup_middle by reflexivity.
        destruct (3 - length back) as [|m] eqn:Hm; [lia|].
        cbn [scanBack].
        destruct (byteN b <? 0x80)%N; [reflexivity|].
        destruct (utf8.RuneStart b).
        -- rewrite rev_involutive. now rewrite take_app_length.
        -- replace (Z.of_nat (length front)  - 1)%Z
             with (Z.of_nat (length front) - 1)%Z by reflexivity.
           rewrite (IH front (b :: back)) by lia.
           cbn [length]. replace (3 - S (length back)) with m by lia.
           reflexivity.
      * replace (3 - length back) with 0 by lia. reflexivity.
Qed.

Lemma trimPartialRune_trimmed (content : list byte) :
  trimPartialRune content = trimmed content.
Proof.
  unfold trimPartialRune, trimmed.
  pose proof (trimLoop_scanBack (length content) content [] (le_n _)) as H.
  rewrite app_nil_r in H. exact H.
Qed.

Lemma determineEncoding_resolveRules (content : list byte) (contentType : string) :
  determineEncoding content contentType = resolveRules content contentType.
Proof.
  unfold determineEncoding, resolveRules.
  rewrite capped_take, bomLoop_bomLabel.
  destruct (bomLabel (take previewSize content)) as [label|]; [reflexivity|].
  unfold declaredCharset, lookupPair.
  destruct (ParseMediaType contentType) as [[mediatype params]|].
  - destruct (params !! "charset") as [cs|].
    + destruct (Lookup cs) as [[e name]|]; [reflexivity|].
      unfold acceptedMeta.
      destruct (take previewSize content) as [|b l] eqn:Hc.
      * cbn [length Nat.ltb Nat.leb].
        now rewrite trimPartialRune_trimmed, hasHighBit_existsb.
      * cbn [length Nat.ltb Nat.leb].
        destruct (prescan (b :: l)) as [[e|] name]; [reflexivity|].
        now rewrite trimPartialRune_trimmed, hasHighBit_existsb.
    + unfold acceptedMeta.
      destruct (take previewSize content) as [|b l] eqn:Hc.
      * cbn [length Nat.ltb Nat.leb].
        now rewrite trimPartialRune_trimmed, hasHighBit_existsb.
      * cbn [length Nat.ltb Nat.leb].
        destruct (prescan (b :: l)) as [[e|] name]; [reflexivity|].
        now rewrite trimPartialRune_trimmed, hasHighBit_existsb.
  - unfold acceptedMeta.
    destruct (take previewSize content) as [|b l] eqn:Hc.
    * cbn [length Nat.ltb Nat.leb].
      now rewrite trimPartialRune_trimmed, hasHighBit_existsb.
    * cbn [length Nat.ltb Nat.leb].
      destruct (prescan (b :: l)) as [[e|] name]; [reflexivity|].
      now rewrite trimPartialRune_trimmed, hasHighBit_existsb.
Qed.

End ResolverFacts.


Lemma allASCII_no_high (content : list byte) :
  allASCII content = true ->
  existsb (fun b => (0x80 <=? byteN b)%N) content = false.
Proof.
  unfold allASCII. induction content as [|b l IH]; [reflexivity|].
  cbn. rewrite andb_true_iff. intros [Hb Hl].
  rewrite (IH Hl), orb_false_r.
  apply N.ltb_lt in Hb. apply N.leb_gt. exact Hb.
Qed.

Lemma allASCII_bomLabel (content : list byte) :
  allASCII content = true -> bomLabel content = None.
Proof.
  intros Hascii. unfold bomLabel, startsWith.
  destruct content as [|b l]; [reflexivity|].
  cbn in Hascii. apply andb_true_iff in Hascii as [Hb _]. apply N.ltb_lt in Hb.
  repeat match goal with
         | |- context [bool_decide ?P] =>
             destruct (bool_decide_reflect P) as [Heq|_];
             [cbn in Heq; destruct l; inversion Heq; subst; cbn in Hb; lia|]
         end.
  reflexivity.
Qed.




(** C8. The resolver looks at no byte beyond the lookahead cap of 10240
    bytes: two contents with the same first 10240 bytes and the same
    declared content type get the same encoding, name and certainty. *)
Theorem determineEncoding_lookahead_only `{lib : Library} :
  Z.of_nat previewSize = 10240%Z
  /\ forall (content1 content2 : list byte) (contentType : string),
       take previewSize content1 = take previewSize content2 ->
       determineEncoding content1 contentType = determineEncoding content2 contentType.
Proof.
  split; [apply previewSize_value|].
  intros content1 content2 contentType Hsame.
  rewrite !determineEncoding_resolveRules.
  unfold resolveRules. now rewrite Hsame.
Qed.

Lemma determineEncoding_lookahead_only_witness :
  determineEncoding (lib := Demo.demoLib) (repeat x61 previewSize ++ [xe9; xe9]) ""
  = determineEncoding (lib := Demo.demoLib) (repeat x61 previewSize ++ bytesOf "<meta charset='utf-16'>") "".
Proof.
  apply (proj2 (determineEncoding_lookahead_only (lib := Demo.demoLib))).
  rewrite !take_app_length'; [reflexivity| |]; symmetry; apply repeat_length.
Defined.

(** ** [NewReader] *)

Lemma bomLabel_utf8 (rest : list byte) : bomLabel (utf8bom ++ rest) = Some "utf-8".
Proof. reflexivity. Qed.

Lemma take_utf8bom (k : nat) (rest : list byte) :
  3 <= k -> take k (utf8bom ++ rest) = utf8bom ++ take (k - 3) rest.
Proof.
  intros Hk. destruct k as [|[|[|k]]]; try lia.
  cbn. now rewrite Nat.sub_0_r.
Qed.


Lemma decodeLatin1_ascii (src : list byte) :
  allASCII src = true -> decodeLatin1 src = (src, None).
Proof.
  unfold decodeLatin1. intros H. f_equal.
  induction src as [|b src IH]; [reflexivity|].
  cbn in H. apply andb_true_iff in H as [Hb Hsrc].
  cbn. unfold latin1Rune. rewrite Hb. cbn. f_equal. now apply IH.
Qed.

Lemma discardBOM_bytes (p : list byte) :
  exists q, discardBOM (bytes_NewReader p) = Returns (bytes_NewReader q).
Proof.
  destruct (le_lt_dec 3 (length p)) as [Hlen|Hlen].
  - destruct (notUTF8BOM p) eqn:Hbom.
    + exists p. now apply discardBOM_other.
    + destruct p as [|a [|b [|c p]]]; try discriminate.
      cbn in Hbom. apply orb_false_iff in Hbom as [Hab Hc].
      apply orb_false_iff in Hab as [Ha Hb].
      apply negb_false_iff, byte_eqb_eq in Ha, Hb, Hc. subst.
      exists p. reflexivity.
  - exists p. now apply discardBOM_short.
Qed.

Lemma transform_bytes (p : list byte) (d : Decoder) :
  (d p).2 = None ->
  transform_NewReader (bytes_NewReader p) d = bytes_NewReader (d p).1.
Proof.
  unfold transform_NewReader. cbn [pending final bytes_NewReader].
  destruct (d p) as [out [err|]]; cbn; [discriminate|reflexivity].
Qed.

Section NewReaderFacts.
Context {lib : Library}.

Lemma Local_NewReader_empty :
  Local.NewReader (bytes_NewReader []) = Returns (bytes_NewReader []).
Proof.
  unfold Local.NewReader, NewReaderWith.
  rewrite newReader_failing; [reflexivity| |exact I].
  cbn. pose proof previewSize_ge. lia.
Qed.

Lemma Local_NewReader_resolved (p : list byte) (e : Encoding) (name : string) (certain : bool) :
  p <> [] ->
  determineEncoding (take previewSize p) "" = (Some e, name, certain) ->
  Local.NewReader (bytes_NewReader p)
  = discardBOM (if decide (e = Nop) then bytes_NewReader p
                else transform_NewReader (bytes_NewReader p) (NewDecoder e)).
Proof.
  intros Hp Hres. unfold Local.NewReader, NewReaderWith.
  assert (Hsnd : newReader (bytes_NewReader p) ""
                 = ((newReader (bytes_NewReader p) "").1, resolved (bytes_NewReader p) "")).
  { destruct (le_lt_dec previewSize (length p)) as [Hlen|Hlen].
    - now rewrite newReader_full.
    - rewrite newReader_partial; [reflexivity| |reflexivity].
      cbn. destruct p; [congruence|]. cbn in *. lia. }
  rewrite Hsnd. unfold resolved. cbn [pending bytes_NewReader].
  rewrite Hres. destruct (decide (e = Nop)); reflexivity.
Qed.

Lemma determineEncoding_utf8bom (rest : list byte) (contentType : string) :
  determineEncoding (utf8bom ++ rest) contentType = (lookupPair "utf-8", true).
Proof.
  rewrite determineEncoding_resolveRules. unfold resolveRules.
  rewrite take_utf8bom by apply previewSize_ge.
  now rewrite bomLabel_utf8.
Qed.

End NewReaderFacts.

Section ShortInputs.
Context {lib : Library}.


Lemma short_bomLabel (p : list byte) :
  length p < 3 ->
  bomLabel p = None \/ bomLabel p = Some "utf-16be" \/ bomLabel p = Some "utf-16le".
Proof.
  intros Hlen. unfold bomLabel.
  destruct (startsWith [xfe; xff] p); [auto|].
  destruct (startsWith [xff; xfe] p); [auto|].
  destruct (startsWith [xef; xbb; xbf] p) eqn:H; [|auto].
  unfold startsWith in H. apply bool_decide_eq_true in H.
  apply (f_equal length) in H. rewrite length_take in H.
  change (length [xef; xbb; xbf]) with 3 in H. lia.
Qed.

End ShortInputs.

(** C3 as stated fails: the single byte EF comes back as the two bytes
    C3 AF, its decoding from ISO-8859-1. *)
Lemma NewReader_short_not_verbatim :
  output (Local.NewReader (lib := Demo.demoLib) (bytes_NewReader [xef]))
  = Some ([xc3; xaf], None)
  /\ output (Local.NewReader (lib := Demo.demoLib) (bytes_NewReader [xef]))
     <> Some ([xef], None).
Proof. split; [vm_compute; reflexivity|vm_compute; discriminate]. Qed.

(** ** Running the pipeline on its own output *)

Lemma determineEncoding_take `{lib : Library} (content : list byte) (contentType : string) :
  determineEncoding (take previewSize content) contentType
  = determineEncoding content contentType.
Proof.
  rewrite !determineEncoding_resolveRules. unfold resolveRules.
  now rewrite take_take, Nat.min_id.
Qed.



(** C5 as stated fails: the byte E9 comes out as C3 A9, and a second run
    turns C3 A9 into C3 83 C2 A9. *)
Lemma NewReader_not_idempotent :
  output (Local.NewReader (lib := Demo.demoLib) (bytes_NewReader [xe9]))
  = Some ([xc3; xa9], None)
  /\ output (Local.NewReader (lib := Demo.demoLib) (bytes_NewReader [xc3; xa9]))
     = Some ([xc3; x83; xc2; xa9], None)
  /\ output (Local.NewReader (lib := Demo.demoLib) (bytes_NewReader [xc3; xa9]))
     <> Some ([xc3; xa9], None).
Proof. repeat split; vm_compute; solve [reflexivity|discriminate]. Qed.

(** ** Failures *)




(** ** The three revisions compared *)

Lemma Local_is_Earlier `{lib : Library} (r : Reader) :
  Local.NewReader r = Earlier.NewReader newReader r.
Proof. reflexivity. Qed.

Lemma discardBOM_current_agrees (p : list byte) :
  p = [] \/ 3 <= length p ->
  discardBOM_current (bytes_NewReader p) = discardBOM (bytes_NewReader p).
Proof.
  intros [->|Hlen]; [reflexivity|].
  destruct p as [|a [|b [|c p]]]; cbn in Hlen; try lia.
  unfold discardBOM, discardBOM_current.
  rewrite ReadFull_enough by (cbn; lia). reflexivity.
Qed.

(** C10 fails on the code.  On a stream of one or two bytes the current
    revision hands back the reader it has just drained, so nothing is
    left to read, where the earlier revisions hand back the bytes. *)
Theorem NewReader_current_drops_short_input
    (open : Reader -> string -> Reader * Outcome (Result Reader))
    (p : list byte) (r' : Reader) :
  0 < length p < 3 ->
  open (bytes_NewReader p) "" = (r', Returns (Ok (bytes_NewReader p))) ->
  output (Current.NewReader open (bytes_NewReader p)) = Some ([], None)
  /\ output (Earlier.NewReader open (bytes_NewReader p)) = Some (p, None).
Proof.
  intros [Hpos Hlen] Hopen.
  unfold Current.NewReader, Earlier.NewReader, NewReaderWith. rewrite Hopen.
  unfold bytes_NewReader.
  rewrite discardBOM_current_short by exact Hlen.
  fold (bytes_NewReader p). rewrite discardBOM_short by exact Hlen.
  split; reflexivity.
Qed.

Lemma NewReader_current_drops_short_input_witness :
  output (Current.NewReader Demo.demoOpen (bytes_NewReader (bytesOf "a"))) = Some ([], None)
  /\ output (Earlier.NewReader Demo.demoOpen (bytes_NewReader (bytesOf "a")))
     = Some (bytesOf "a", None).
Proof.
  apply (NewReader_current_drops_short_input Demo.demoOpen (bytesOf "a") (mkReader [] EOF)).
  - cbn. lia.
  - vm_compute. reflexivity.
Defined.

(** ** The charset micro-parser *)

Lemma len_from (n : nat) (s : string) :
  GoStrings.len (GoStrings.from n s) = GoStrings.len s - n.
Proof.
  unfold GoStrings.len.
  revert s. induction n as [|n IH]; intros [|c s]; cbn; try reflexivity.
  apply IH.
Qed.

Lemma len_TrimLeft (s cutset : string) :
  GoStrings.len (GoStrings.TrimLeft s cutset) <= GoStrings.len s.
Proof.
  unfold GoStrings.len. induction s as [|c s IH]; cbn; [lia|].
  destruct (GoStrings.inSet c cutset); cbn in *; lia.
Qed.

Lemma afterCharset_shorter (s rest : string) :
  afterCharset s = Some rest -> s <> EmptyString ->
  GoStrings.len rest < GoStrings.len s.
Proof.
  unfold afterCharset. destruct (GoStrings.Index s "charset") as [csLoc|]; [|discriminate].
  intros [= <-] Hs.
  pose proof (len_TrimLeft (GoStrings.from (csLoc + GoStrings.len "charset") s) htmlSpace) as H.
  rewrite len_from in H. destruct s; [congruence|].
  unfold GoStrings.len in *. cbn in *. lia.
Qed.

Lemma IndexByte_before (s : string) (q : ascii) :
  match GoStrings.IndexByte s q with
  | Some closeQuote =>
      occurs q s = true
      /\ GoStrings.upto closeQuote s = before (fun c => Ascii.eqb c q) s
  | None => occurs q s = false
  end.
Proof.
  induction s as [|d s IH]; cbn; [reflexivity|].
  destruct (Ascii.eqb d q); [split; reflexivity|].
  destruct (GoStrings.IndexByte s q); cbn.
  - destruct IH as [-> ->]. split; reflexivity.
  - exact IH.
Qed.

Lemma IndexAny_before (s chars : string) :
  GoStrings.upto
    (match GoStrings.IndexAny s chars with
     | Some e => e
     | None => GoStrings.len s
     end) s
  = before (fun c => GoStrings.inSet c chars) s.
Proof.
  induction s as [|d s IH]; cbn; [reflexivity|].
  destruct (GoStrings.inSet d chars); [reflexivity|].
  destruct (GoStrings.IndexAny s chars); cbn; f_equal; exact IH.
Qed.

(** One turn of the loop, written with [afterCharset] and [readValue]. *)
Lemma fromMetaElement_loop_step (fuel : nat) (s : string) :
  fromMetaElement_loop (S fuel) s
  = match afterCharset s with
    | None => Some EmptyString
    | Some rest =>
        if GoStrings.HasPrefix rest "="
        then Some (readValue (GoStrings.TrimLeft (GoStrings.from 1 rest) htmlSpace))
        else fromMetaElement_loop fuel rest
    end.
Proof.
  unfold afterCharset. destruct s as [|c s]; [reflexivity|].
  cbn [fromMetaElement_loop].
  destruct (GoStrings.Index (String c s) "charset") as [csLoc|]; [|reflexivity].
  set (rest := GoStrings.TrimLeft _ htmlSpace).
  destruct (GoStrings.HasPrefix rest "="); cbn [negb]; [|reflexivity].
  set (val := GoStrings.TrimLeft _ htmlSpace).
  destruct val as [|q s1]; [reflexivity|].
  unfold readValue. destruct (isQuote q).
  - pose proof (IndexByte_before s1 q) as H.
    destruct (GoStrings.IndexByte s1 q).
    + destruct H as [-> ->]. reflexivity.
    + now rewrite H.
  - now rewrite IndexAny_before.
Qed.

(** The loop ends within [len(s) + 1] turns, whatever fuel is left. *)
Lemma fromMetaElement_loop_total (fuel : nat) :
  forall s, GoStrings.len s < fuel ->
    fromMetaElement_loop fuel s = Some (fromMetaElement s).
Proof.
  induction fuel as [fuel IH] using lt_wf_ind. intros s Hlen.
  destruct fuel as [|fuel]; [lia|].
  unfold fromMetaElement. rewrite !fromMetaElement_loop_step.
  destruct (afterCharset s) as [rest|] eqn:Hrest; [|reflexivity].
  destruct (GoStrings.HasPrefix rest "="); [reflexivity|].
  destruct s as [|c s]; [discriminate|].
  pose proof (afterCharset_shorter _ _ Hrest ltac:(discriminate)) as Hshort.
  rewrite (IH fuel) by lia.
  rewrite (IH (GoStrings.len (String c s))) by lia.
  reflexivity.
Qed.

(** C9 (amended).  [fromMetaElement] finds the first ["charset"], skips
    white space and looks for [=]: with it, it skips white space and
    returns the quoted value up to the same quote (empty when the quote
    is not closed) or the bare value up to white space or [;]; without
    it, it starts again on what follows that ["charset"].  The empty
    string comes back when no ["charset"] is left. *)
Theorem fromMetaElement_retries (s : string) :
  fromMetaElement s
  = match afterCharset s with
    | None => EmptyString
    | Some rest =>
        if GoStrings.HasPrefix rest "="
        then readValue (GoStrings.TrimLeft (GoStrings.from 1 rest) htmlSpace)
        else fromMetaElement rest
    end.
Proof.
  unfold fromMetaElement at 1. rewrite fromMetaElement_loop_step.
  destruct (afterCharset s) as [rest|] eqn:Hrest; [|reflexivity].
  destruct (GoStrings.HasPrefix rest "="); [reflexivity|].
  destruct s as [|c s]; [discriminate|].
  pose proof (afterCharset_shorter _ _ Hrest ltac:(discriminate)) as Hshort.
  now rewrite fromMetaElement_loop_total by lia.
Qed.

(** C9 as stated fails: when [=] is missing after the first ["charset"]
    the result is not empty if a later ["charset"] has one. *)
Lemma fromMetaElement_not_onePass :
  fromMetaElement "charset charset=x" = "x"
  /\ fromMetaElement_onePass "charset charset=x" = ""
  /\ fromMetaElement "charset charset=x" <> fromMetaElement_onePass "charset charset=x".
Proof. repeat split; vm_compute; solve [reflexivity|discriminate]. Qed.

Example fromMetaElement_unterminated :
  fromMetaElement "text/html; charset='utf-8" = "".
Proof. reflexivity. Qed.

(** ** The meta-tag scanner *)

Section MetaFacts.
Context {lib : Library}.

Lemma metaTag_afterAttrs (attrs : list (list byte * list byte)) :
  metaTag attrs
  = if pragmaSatisfied (afterAttrs attrs) then
      if GoStrings.HasPrefix (st_name (afterAttrs attrs)) "utf-16"
      then Some (Nop, "utf-8")
      else match st_e (afterAttrs attrs) with
           | Some e => Some (e, st_name (afterAttrs attrs))
           | None => None
           end
    else None.
Proof.
  unfold metaTag, pragmaSatisfied, afterAttrs.
  destruct (needPragma _); try reflexivity;
    [destruct (gotPragma _); cbn [negb]; try reflexivity|];
    destruct (GoStrings.HasPrefix _ "utf-16"); reflexivity.
Qed.

(** The three attributes [prescan] knows, met for the first time *)
Lemma attrStep_charset (st : MetaState) (val : list byte) :
  attrList st !! "charset" = None ->
  attrStep st (bytesOf "charset", val)
  = mkMetaState (<["charset" := true]> (attrList st)) (gotPragma st) doNotNeedPragma
      (lookupPair (stringOf (map lowerByte val))).1
      (lookupPair (stringOf (map lowerByte val))).2.
Proof.
  intros Hnew. unfold attrStep. cbn [fst snd].
  change (stringOf (bytesOf "charset")) with "charset".
  rewrite Hnew. cbn [default].
  change ("charset" =? "http-equiv")%string with false.
  change ("charset" =? "content")%string with false.
  change ("charset" =? "charset")%string with true. cbn iota.
  destruct (lookupPair _); reflexivity.
Qed.



(** a [charset] attribute alone *)
Lemma metaTag_charset (val : list byte) (e : Encoding) (name : string) :
  Lookup (stringOf (map lowerByte val)) = Some (e, name) ->
  metaTag [(bytesOf "charset", val)] = Some (recode (e, name)).
Proof.
  intros Hreg. rewrite metaTag_afterAttrs. unfold afterAttrs, recode.
  cbn [foldl]. rewrite attrStep_charset by apply lookup_empty.
  unfold lookupPair. rewrite Hreg.
  cbn [pragmaSatisfied needPragma st_name st_e fst snd].
  destruct (GoStrings.HasPrefix name "utf-16"); reflexivity.
Qed.






Lemma prescanTokens_passedOver (tokens rest : list Token) :
  Forall passedOver tokens ->
  prescanTokens (tokens ++ rest) = prescanTokens rest.
Proof.
  induction 1 as [|t tokens [Hnoerr Hmeta] _ IH]; [reflexivity|].
  cbn [app prescanTokens].
  destruct (tokType t); try congruence; try exact IH;
    (destruct (GoBytes.Equal (TagName t) (bytesOf "meta")); cbn [negb];
     [rewrite (Hmeta eq_refl); exact IH|exact IH]).
Qed.

Lemma metaTag_not_utf16 (attrs : list (list byte * list byte)) (found : Encoding * string) :
  metaTag attrs = Some found -> GoStrings.HasPrefix found.2 "utf-16" = false.
Proof.
  rewrite metaTag_afterAttrs.
  destruct (pragmaSatisfied _); [|discriminate].
  destruct (GoStrings.HasPrefix _ "utf-16") eqn:Hpre.
  - intros [= <-]. reflexivity.
  - destruct (st_e _); [|discriminate]. intros [= <-]. exact Hpre.
Qed.

Lemma prescanTokens_not_utf16 (tokens : list Token) (e : Encoding) (name : string) :
  prescanTokens tokens = (Some e, name) -> GoStrings.HasPrefix name "utf-16" = false.
Proof.
  induction tokens as [|t tokens IH]; cbn [prescanTokens]; [discriminate|].
  destruct (tokType t); try discriminate; try exact IH;
    (destruct (GoBytes.Equal (TagName t) (bytesOf "meta")); cbn [negb]; [|exact IH];
     destruct (metaTag (TagAttr t)) as [[e' name']|] eqn:Hmeta; [|exact IH];
     intros [= -> ->]; exact (metaTag_not_utf16 _ _ Hmeta)).
Qed.

End MetaFacts.



(** C7. When the name the registry gives for the charset of an accepted
    meta tag begins with ["utf-16"], the tag yields the no-op encoding
    under the name ["utf-8"], and [prescan] returns it for the first such
    tag; [prescan] never returns a name that begins with ["utf-16"]. *)
Theorem utf16_in_meta_is_utf8 `{lib : Library} :
  (forall attrs,
      pragmaSatisfied (afterAttrs attrs) = true ->
      GoStrings.HasPrefix (st_name (afterAttrs attrs)) "utf-16" = true ->
      metaTag attrs = Some (Nop, "utf-8"))
  /\ (forall val e name,
         Lookup (stringOf (map lowerByte val)) = Some (e, name) ->
         GoStrings.HasPrefix name "utf-16" = true ->
         metaTag [(bytesOf "charset", val)] = Some (Nop, "utf-8"))
  /\ (forall skipped t rest,
         Forall passedOver skipped ->
         tokType t = StartTagToken \/ tokType t = SelfClosingTagToken ->
         GoBytes.Equal (TagName t) (bytesOf "meta") = true ->
         metaTag (TagAttr t) = Some (Nop, "utf-8") ->
         prescanTokens (skipped ++ t :: rest) = (Some Nop, "utf-8"))
  /\ (forall content e name,
         prescan content = (Some e, name) ->
         GoStrings.HasPrefix name "utf-16" = false).
Proof.
  split; [|split; [|split]].
  - intros attrs Hok Hname. rewrite metaTag_afterAttrs. now rewrite Hok, Hname.
  - intros val e name Hreg Hname. rewrite (metaTag_charset _ _ _ Hreg).
    unfold recode. cbn [snd]. now rewrite Hname.
  - intros skipped t rest Hskip Htype Hmeta Hfound.
    rewrite prescanTokens_passedOver by exact Hskip.
    cbn [prescanTokens]. rewrite Hmeta, Hfound.
    destruct Htype as [-> | ->]; reflexivity.
  - intros content e name. apply prescanTokens_not_utf16.
Qed.

Lemma utf16_in_meta_is_utf8_witness :
  metaTag (lib := Demo.demoLib) [(bytesOf "charset", bytesOf "UTF-16")]
  = Some (Demo.demoNop, "utf-8")
  /\ prescan (lib := Demo.demoLib) (bytesOf "<meta charset='utf-16'>")
     = (Some Demo.demoNop, "utf-8").
Proof.
  destruct (utf16_in_meta_is_utf8 (lib := Demo.demoLib)) as (_ & Hcharset & Hscan & _).
  split.
  - apply (Hcharset (bytesOf "UTF-16") (Demo.demoUTF16 false) "utf-16le");
      vm_compute; reflexivity.
  - apply (Hscan [] (Demo.metaToken [("charset", "utf-16")]) []).
    + constructor.
    + left. reflexivity.
    + reflexivity.
    + apply (Hcharset (bytesOf "utf-16") (Demo.demoUTF16 false) "utf-16le");
        vm_compute; reflexivity.
Defined.


(** * Further properties of the code *)

(** ** [fromMetaElement] *)

Lemma str_app_cons (x : ascii) (a b : string) : String x a +:+ b = String x (a +:+ b).
Proof. reflexivity. Qed.

Lemma str_app_nil_l (a : string) : "" +:+ a = a.
Proof. reflexivity. Qed.

Lemma str_app_assoc (a b c : string) : (a +:+ b) +:+ c = a +:+ b +:+ c.
Proof.
  induction a as [|x a IH]; [reflexivity|].
  rewrite !str_app_cons. f_equal. exact IH.
Qed.

Lemma str_app_nil_r (a : string) : a +:+ "" = a.
Proof.
  induction a as [|x a IH]; [reflexivity|].
  rewrite str_app_cons. f_equal. exact IH.
Qed.

Lemma len_app (a b : string) :
  GoStrings.len (a +:+ b) = GoStrings.len a + GoStrings.len b.
Proof.
  unfold GoStrings.len. induction a as [|x a IH]; [reflexivity|].
  rewrite str_app_cons. cbn [String.length]. now rewrite IH.
Qed.

Lemma from_suffix (n : nat) (s : string) : exists pre, s = pre +:+ GoStrings.from n s.
Proof.
  revert s. induction n as [|n IH]; intros s; [now exists ""|].
  destruct s as [|c s]; [now exists ""|].
  destruct (IH s) as [pre Hpre]. exists (String c pre).
  cbn [GoStrings.from]. rewrite str_app_cons. now rewrite <- Hpre.
Qed.

Lemma TrimLeft_suffix (s cutset : string) :
  exists pre, s = pre +:+ GoStrings.TrimLeft s cutset.
Proof.
  induction s as [|c s [pre Hpre]]; [now exists ""|]. cbn [GoStrings.TrimLeft].
  destruct (GoStrings.inSet c cutset); [|now exists ""].
  exists (String c pre). rewrite str_app_cons. now rewrite <- Hpre.
Qed.

Lemma afterCharset_suffix (s rest : string) :
  afterCharset s = Some rest -> exists pre, s = pre +:+ rest.
Proof.
  unfold afterCharset. destruct (GoStrings.Index s "charset") as [csLoc|]; [|discriminate].
  intros [= <-].
  set (t := GoStrings.from _ s).
  destruct (from_suffix (csLoc + GoStrings.len "charset") s) as [pre1 H1].
  fold t in H1.
  destruct (TrimLeft_suffix t htmlSpace) as [pre2 H2].
  exists (pre1 +:+ pre2). rewrite str_app_assoc, <- H2. exact H1.
Qed.

Lemma before_prefix (stop : ascii -> bool) (s : string) :
  exists post, s = before stop s +:+ post.
Proof.
  induction s as [|c s [post Hpost]]; [now exists ""|]. cbn [before].
  destruct (stop c); [now exists (String c s)|].
  exists post. rewrite str_app_cons. now rewrite <- Hpost.
Qed.

Lemma substringOf_empty (s : string) : substringOf "" s.
Proof. exists "", s. reflexivity. Qed.

Lemma substringOf_suffix (r t s : string) :
  substringOf r t -> (exists pre, s = pre +:+ t) -> substringOf r s.
Proof.
  intros (pre1 & post & ->) (pre2 & ->).
  exists (pre2 +:+ pre1), post. now rewrite str_app_assoc.
Qed.

Lemma readValue_substring (v : string) : substringOf (readValue v) v.
Proof.
  destruct v as [|q v]; [apply substringOf_empty|]. unfold readValue.
  destruct (isQuote q).
  - destruct (occurs q v); [|apply substringOf_empty].
    destruct (before_prefix (fun c => Ascii.eqb c q) v) as [post Hpost].
    exists (String q ""), post.
    rewrite str_app_cons, str_app_nil_l. now rewrite <- Hpost.
  - destruct (before_prefix (fun c => GoStrings.inSet c valueEnd) (String q v)) as [post Hpost].
    exists "", post. exact Hpost.
Qed.

(** The loop of [fromMetaElement], one turn at a time *)
Lemma fromMetaElement_unfold (s : string) :
  fromMetaElement s
  = match afterCharset s with
    | None => EmptyString
    | Some rest =>
        if GoStrings.HasPrefix rest "="
        then readValue (GoStrings.TrimLeft (GoStrings.from 1 rest) htmlSpace)
        else fromMetaElement rest
    end.
Proof.
  unfold fromMetaElement at 1. rewrite fromMetaElement_loop_step.
  destruct (afterCharset s) as [rest|] eqn:Hrest; [|reflexivity].
  destruct (GoStrings.HasPrefix rest "="); [reflexivity|].
  destruct s as [|c s]; [discriminate|].
  pose proof (afterCharset_shorter _ _ Hrest ltac:(discriminate)) as Hshort.
  now rewrite fromMetaElement_loop_total by lia.
Qed.

(** X1. What [fromMetaElement] returns is a run of consecutive bytes of
    its argument, hence no longer than it. *)
Theorem fromMetaElement_substring (s : string) :
  substringOf (fromMetaElement s) s
  /\ GoStrings.len (fromMetaElement s) <= GoStrings.len s.
Proof.
  assert (Hsub : substringOf (fromMetaElement s) s).
  { remember (GoStrings.len s) as n eqn:Hn. revert s Hn.
    induction n as [n IH] using lt_wf_ind. intros s Hn.
    rewrite fromMetaElement_unfold.
    destruct (afterCharset s) as [rest|] eqn:Hrest; [|apply substringOf_empty].
    pose proof (afterCharset_suffix _ _ Hrest) as Hsuf.
    destruct (GoStrings.HasPrefix rest "=").
    - eapply substringOf_suffix; [apply readValue_substring|].
      destruct (from_suffix 1 rest) as [pre1 H1].
      destruct (TrimLeft_suffix (GoStrings.from 1 rest) htmlSpace) as [pre2 H2].
      destruct Hsuf as [pre0 ->].
      exists (pre0 +:+ pre1 +:+ pre2).
      rewrite !str_app_assoc, <- H2, <- H1. reflexivity.
    - eapply substringOf_suffix; [|exact Hsuf].
      destruct s as [|c s]; [discriminate|].
      pose proof (afterCharset_shorter _ _ Hrest ltac:(discriminate)).
      eapply IH; [|reflexivity]. lia. }
  split; [exact Hsub|].
  destruct Hsub as (pre & post & Heq).
  rewrite Heq at 2. rewrite !len_app. lia.
Qed.

Lemma HasPrefix_len (s sub : string) :
  GoStrings.HasPrefix s sub = true -> GoStrings.len sub <= GoStrings.len s.
Proof.
  unfold GoStrings.len. revert s.
  induction sub as [|x sub IH]; intros s; cbn; [lia|].
  destruct s as [|c s]; [discriminate|].
  destruct (Ascii.eqb c x); [|discriminate].
  intros H. apply IH in H. cbn. lia.
Qed.

Lemma HasPrefix_app_long (s t sub : string) :
  GoStrings.len sub <= GoStrings.len s ->
  GoStrings.HasPrefix (s +:+ t) sub = GoStrings.HasPrefix s sub.
Proof.
  unfold GoStrings.len. revert s.
  induction sub as [|x sub IH]; intros s Hlen; [reflexivity|].
  destruct s as [|c s]; [cbn in Hlen; lia|].
  rewrite str_app_cons. cbn [GoStrings.HasPrefix].
  destruct (Ascii.eqb c x); [|reflexivity].
  apply IH. cbn in Hlen. lia.
Qed.

Lemma Index_bound (s sub : string) (i : nat) :
  GoStrings.Index s sub = Some i -> i + GoStrings.len sub <= GoStrings.len s.
Proof.
  revert i. induction s as [|c s IH]; intros i; cbn [GoStrings.Index].
  - destruct (GoStrings.HasPrefix "" sub) eqn:H; [|discriminate].
    intros [= <-]. apply HasPrefix_len in H. lia.
  - destruct (GoStrings.HasPrefix (String c s) sub) eqn:H.
    + intros [= <-]. apply HasPrefix_len in H. lia.
    + destruct (GoStrings.Index s sub) as [j|]; [|discriminate].
      intros [= <-]. specialize (IH j eq_refl). unfold GoStrings.len in *. cbn. lia.
Qed.

Lemma Index_app (s t sub : string) (i : nat) :
  GoStrings.Index s sub = Some i -> GoStrings.Index (s +:+ t) sub = Some i.
Proof.
  revert i. induction s as [|c s IH]; intros i Hidx.
  - cbn [GoStrings.Index] in Hidx.
    destruct (GoStrings.HasPrefix "" sub) eqn:H; [|discriminate].
    injection Hidx as <-. destruct sub; [|discriminate].
    rewrite str_app_nil_l. destruct t; reflexivity.
  - pose proof (Index_bound _ _ _ Hidx) as Hb.
    cbn [GoStrings.Index] in Hidx. rewrite str_app_cons. cbn [GoStrings.Index].
    rewrite <- str_app_cons.
    destruct (GoStrings.HasPrefix (String c s) sub) eqn:H.
    + rewrite HasPrefix_app_long, H by lia. exact Hidx.
    + rewrite HasPrefix_app_long, H by lia.
      destruct (GoStrings.Index s sub) as [j|]; [|discriminate].
      now rewrite (IH j eq_refl).
Qed.

Lemma from_app (a t : string) : GoStrings.from (GoStrings.len a) (a +:+ t) = t.
Proof. induction a as [|x a IH]; [reflexivity|]. rewrite str_app_cons. exact IH. Qed.

Lemma afterCharset_first (p t : string) :
  GoStrings.Index (p +:+ "charset") "charset" = Some (GoStrings.len p) ->
  afterCharset (p +:+ "charset" +:+ t) = Some (GoStrings.TrimLeft t htmlSpace).
Proof.
  intros Hidx. unfold afterCharset.
  rewrite <- str_app_assoc, (Index_app _ t _ _ Hidx).
  replace (GoStrings.len p + GoStrings.len "charset")
    with (GoStrings.len (p +:+ "charset")) by apply len_app.
  now rewrite from_app.
Qed.

Lemma TrimLeft_app_set (ws t cutset : string) :
  allChars (fun c => GoStrings.inSet c cutset) ws = true ->
  GoStrings.TrimLeft (ws +:+ t) cutset = GoStrings.TrimLeft t cutset.
Proof.
  induction ws as [|c ws IH]; [reflexivity|]. cbn [allChars].
  intros H. apply andb_true_iff in H as [Hc Hws].
  rewrite str_app_cons. cbn [GoStrings.TrimLeft]. rewrite Hc. now apply IH.
Qed.

Lemma before_all (stop : ascii -> bool) (v rest : string) :
  allChars (fun x => negb (stop x)) v = true ->
  match rest with EmptyString => true | String c _ => stop c end = true ->
  before stop (v +:+ rest) = v.
Proof.
  intros Hv Hrest. induction v as [|x v IH].
  - rewrite str_app_nil_l. destruct rest as [|c rest]; [reflexivity|].
    cbn [before]. now rewrite Hrest.
  - cbn [allChars] in Hv. apply andb_true_iff in Hv as [Hx Hv].
    rewrite str_app_cons. cbn [before].
    apply negb_true_iff in Hx. rewrite Hx. now rewrite IH.
Qed.

Lemma occurs_false_all (q : ascii) (v : string) :
  occurs q v = false -> allChars (fun x => negb (Ascii.eqb x q)) v = true.
Proof.
  induction v as [|x v IH]; [reflexivity|]. cbn.
  intros H. apply orb_false_iff in H as [Hx Hv]. now rewrite Hx, IH.
Qed.

Lemma occurs_app_closing (q : ascii) (v rest : string) :
  occurs q (v +:+ String q rest) = true.
Proof.
  induction v as [|x v IH].
  - rewrite str_app_nil_l. cbn. now rewrite Ascii.eqb_refl.
  - rewrite str_app_cons. cbn [occurs]. rewrite IH. apply orb_true_r.
Qed.

Lemma isQuote_not_space (q : ascii) : isQuote q = true -> GoStrings.inSet q htmlSpace = false.
Proof.
  unfold isQuote. intros H. apply orb_true_iff in H as [H|H];
    apply Ascii.eqb_eq in H; subst q; reflexivity.
Qed.

Lemma endsValue_space (c : ascii) : endsValue c = false -> GoStrings.inSet c htmlSpace = false.
Proof.
  unfold endsValue, valueEnd. cbn [GoStrings.inSet].
  intros H. now apply orb_false_iff in H as [_ H].
Qed.

(** What [fromMetaElement] does after the first ["charset"] when [=]
    follows, with white space around it *)
Lemma fromMetaElement_first (p ws1 ws2 value : string) :
  GoStrings.Index (p +:+ "charset") "charset" = Some (GoStrings.len p) ->
  allChars isHtmlSpace ws1 = true ->
  allChars isHtmlSpace ws2 = true ->
  fromMetaElement (p +:+ "charset" +:+ ws1 +:+ "=" +:+ ws2 +:+ value)
  = readValue (GoStrings.TrimLeft value htmlSpace).
Proof.
  intros Hidx Hws1 Hws2. rewrite fromMetaElement_unfold.
  rewrite (afterCharset_first _ _ Hidx).
  rewrite (TrimLeft_app_set _ _ _ Hws1).
  change ("=" +:+ ws2 +:+ value) with (String "=" (ws2 +:+ value)).
  cbn [GoStrings.TrimLeft]. change (GoStrings.inSet "=" htmlSpace) with false. cbn iota.
  change (GoStrings.HasPrefix (String "=" (ws2 +:+ value)) "=") with true. cbn iota.
  cbn [GoStrings.from]. now rewrite (TrimLeft_app_set _ _ _ Hws2).
Qed.

(** X2. An unquoted value after the first [charset =] is returned whole:
    up to the first white space or [;], or to the end of the string. *)
Theorem fromMetaElement_reads_unquoted
    (p ws1 ws2 : string) (c : ascii) (v rest : string) :
  GoStrings.Index (p +:+ "charset") "charset" = Some (GoStrings.len p) ->
  allChars isHtmlSpace ws1 = true ->
  allChars isHtmlSpace ws2 = true ->
  isQuote c = false ->
  allChars (fun x => negb (endsValue x)) (String c v) = true ->
  valueStops rest = true ->
  fromMetaElement (p +:+ "charset" +:+ ws1 +:+ "=" +:+ ws2 +:+ String c v +:+ rest)
  = String c v.
Proof.
  intros Hidx Hws1 Hws2 Hq Hv Hrest.
  rewrite (fromMetaElement_first _ _ _ _ Hidx Hws1 Hws2).
  assert (Hc : endsValue c = false).
  { cbn [allChars] in Hv. apply andb_true_iff in Hv as [Hc _]. now apply negb_true_iff in Hc. }
  rewrite str_app_cons. cbn [GoStrings.TrimLeft].
  rewrite (endsValue_space _ Hc). unfold readValue. rewrite Hq.
  rewrite <- str_app_cons. apply before_all; [exact Hv|].
  destruct rest; [reflexivity|exact Hrest].
Qed.

Lemma fromMetaElement_reads_unquoted_witness :
  fromMetaElement "text/html; charset = windows-1252; x" = "windows-1252".
Proof.
  apply (fromMetaElement_reads_unquoted "text/html; " " " " " "w" "indows-1252" "; x");
    reflexivity.
Defined.

(** X3. A quoted value after the first [charset =] is returned without
    its quotes, up to the first quote of the same kind; when that quote
    never comes the result is empty. *)
Theorem fromMetaElement_reads_quoted
    (p ws1 ws2 : string) (q : ascii) (v rest : string) :
  GoStrings.Index (p +:+ "charset") "charset" = Some (GoStrings.len p) ->
  allChars isHtmlSpace ws1 = true ->
  allChars isHtmlSpace ws2 = true ->
  isQuote q = true ->
  occurs q v = false ->
  fromMetaElement (p +:+ "charset" +:+ ws1 +:+ "=" +:+ ws2 +:+ String q (v +:+ String q rest))
  = v
  /\ fromMetaElement (p +:+ "charset" +:+ ws1 +:+ "=" +:+ ws2 +:+ String q v) = "".
Proof.
  intros Hidx Hws1 Hws2 Hq Hv.
  rewrite !(fromMetaElement_first _ _ _ _ Hidx Hws1 Hws2).
  cbn [GoStrings.TrimLeft]. rewrite (isQuote_not_space _ Hq).
  unfold readValue. rewrite Hq, occurs_app_closing, Hv. split; [|reflexivity].
  apply (before_all (fun c => Ascii.eqb c q)); [now apply occurs_false_all|].
  apply Ascii.eqb_refl.
Qed.

Lemma fromMetaElement_reads_quoted_witness :
  fromMetaElement "text/html; charset='utf-8' ; x" = "utf-8"
  /\ fromMetaElement "text/html; charset='utf-8" = "".
Proof.
  apply (fromMetaElement_reads_quoted "text/html; " "" "" "'" "utf-8" " ; x");
    reflexivity.
Defined.

(** ** The attributes of a meta tag *)

Section MoreMetaFacts.
Context {lib : Library}.

Lemma attrStep_seen (st : MetaState) (attr : list byte * list byte) :
  default false (attrList st !! stringOf attr.1) = true -> attrStep st attr = st.
Proof. intros H. unfold attrStep. now rewrite H. Qed.

Lemma attrStep_attrList (st : MetaState) (attr : list byte * list byte) :
  default false (attrList st !! stringOf attr.1) = false ->
  attrList (attrStep st attr) = <[stringOf attr.1 := true]> (attrList st).
Proof.
  intros H. unfold attrStep. rewrite H.
  repeat match goal with
         | |- context [if ?b then _ else _] => destruct b
         | |- context [match ?x with _ => _ end] => destruct x
         end; reflexivity.
Qed.

Lemma foldl_firstOccurrences (attrs : list (list byte * list byte)) :
  forall (st : MetaState) (seen : list string),
    (forall k, default false (attrList st !! k) = true <-> k ∈ seen) ->
    foldl attrStep st attrs = foldl attrStep st (firstOccurrences seen attrs).
Proof.
  induction attrs as [|a attrs IH]; intros st seen Hseen; [reflexivity|].
  cbn [foldl firstOccurrences].
  destruct (bool_decide_reflect (stringOf a.1 ∈ seen)) as [Hin|Hnew].
  - rewrite attrStep_seen by now apply Hseen. now apply IH.
  - cbn [foldl]. apply IH. intros k.
    assert (Hfresh : default false (attrList st !! stringOf a.1) = false).
    { destruct (default false (attrList st !! stringOf a.1)) eqn:H; [|reflexivity].
      apply Hseen in H. contradiction. }
    rewrite (attrStep_attrList _ _ Hfresh).
    destruct (decide (stringOf a.1 = k)) as [<-|Hne].
    + rewrite lookup_insert_eq. cbn. split; [intros _; now left|reflexivity].
    + rewrite lookup_insert_ne by exact Hne. rewrite Hseen.
      split; [intros H; now right|].
      intros H. apply elem_of_cons in H as [H|H]; [congruence|exact H].
Qed.

Lemma afterAttrs_firstOccurrences (attrs : list (list byte * list byte)) :
  afterAttrs attrs = afterAttrs (firstOccurrences [] attrs).
Proof.
  apply foldl_firstOccurrences. intros k. cbn. rewrite lookup_empty. cbn.
  split; [discriminate|]. intros H. now apply not_elem_of_nil in H.
Qed.

Lemma attrStep_sameUpToCase (st : MetaState) (a b : list byte * list byte) :
  sameUpToCase a b -> attrStep st a = attrStep st b.
Proof. intros [Hk Hv]. unfold attrStep. now rewrite Hk, Hv. Qed.

Lemma afterAttrs_sameUpToCase (attrs1 attrs2 : list (list byte * list byte)) :
  Forall2 sameUpToCase attrs1 attrs2 -> afterAttrs attrs1 = afterAttrs attrs2.
Proof.
  unfold afterAttrs. generalize metaInit.
  intros st H. revert st. induction H as [|a b l1 l2 Hab _ IH]; intros st; [reflexivity|].
  cbn [foldl]. rewrite (attrStep_sameUpToCase st a b Hab). apply IH.
Qed.

(** What [e] and [name] hold during the attribute loop: nothing, or what
    the registry answered for some label. *)
Lemma attrStep_from_registry (st : MetaState) (attr : list byte * list byte) :
  (exists label, lookupPair label = (st_e st, st_name st)) \/ (st_e st, st_name st) = (None, "") ->
  (exists label, lookupPair label = (st_e (attrStep st attr), st_name (attrStep st attr)))
  \/ (st_e (attrStep st attr), st_name (attrStep st attr)) = (None, "").
Proof.
  intros Hst. unfold attrStep.
  destruct (default false _); [exact Hst|].
  destruct (String.eqb _ "http-equiv"); [destruct (GoBytes.Equal _ _); exact Hst|].
  destruct (String.eqb _ "content").
  - destruct (st_e st) eqn:He; [cbn; exact Hst|].
    destruct (String.eqb_spec (fromMetaElement (stringOf (map lowerByte attr.2))) "")
      as [Hempty|_]; cbn [negb].
    + right. cbn. now rewrite Hempty.
    + destruct (lookupPair _) as [[e|] name] eqn:Hlook; cbn; left; eauto.
  - destruct (String.eqb _ "charset"); [|exact Hst].
    destruct (lookupPair _) as [e name] eqn:Hlook. cbn. left. eauto.
Qed.

Lemma afterAttrs_from_registry (attrs : list (list byte * list byte)) :
  (exists label, lookupPair label
                 = (st_e (afterAttrs attrs), st_name (afterAttrs attrs)))
  \/ (st_e (afterAttrs attrs), st_name (afterAttrs attrs)) = (None, "").
Proof.
  unfold afterAttrs.
  assert (H : forall l st,
             (exists label, lookupPair label = (st_e st, st_name st))
             \/ (st_e st, st_name st) = (None, "") ->
             (exists label, lookupPair label
                            = (st_e (foldl attrStep st l), st_name (foldl attrStep st l)))
             \/ (st_e (foldl attrStep st l), st_name (foldl attrStep st l)) = (None, "")).
  { induction l as [|a l IH]; intros st Hst; [exact Hst|].
    cbn [foldl]. apply IH. now apply attrStep_from_registry. }
  apply H. right. reflexivity.
Qed.

Lemma metaTag_from_registry (attrs : list (list byte * list byte)) (found : Encoding * string) :
  metaTag attrs = Some found ->
  exists label entry, Lookup label = Some entry /\ found = recode entry.
Proof.
  rewrite metaTag_afterAttrs.
  destruct (pragmaSatisfied _); [|discriminate].
  destruct (afterAttrs_from_registry attrs) as [[label Hlook]|Hnone].
  - unfold lookupPair in Hlook.
    destruct (Lookup label) as [[e name]|] eqn:Hreg.
    + injection Hlook as He Hname. rewrite <- He, <- Hname.
      intros Hfound. exists label, (e, name). split; [exact Hreg|].
      unfold recode. cbn [snd].
      destruct (GoStrings.HasPrefix name "utf-16"); now injection Hfound as <-.
    + injection Hlook as He Hname. rewrite <- He, <- Hname. cbn. discriminate.
  - injection Hnone as He Hname. rewrite He, Hname. cbn. discriminate.
Qed.

Lemma prescanTokens_cons (t : Token) (tokens : list Token) :
  prescanTokens (t :: tokens)
  = if scanned t then
      match tokType t with
      | ErrorToken => (None, "")
      | _ => match metaTag (TagAttr t) with
             | Some (e, name) => (Some e, name)
             | None => prescanTokens tokens
             end
      end
    else prescanTokens tokens.
Proof.
  unfold scanned, isMetaTag. cbn [prescanTokens].
  destruct (tokType t); try reflexivity;
    destruct (GoBytes.Equal (TagName t) (bytesOf "meta")); reflexivity.
Qed.

Lemma prescanTokens_scanned (tokens : list Token) :
  prescanTokens tokens = prescanTokens (filter (fun t => scanned t = true) tokens).
Proof.
  induction tokens as [|t tokens IH]; [reflexivity|].
  rewrite filter_cons, prescanTokens_cons.
  destruct (scanned t) eqn:Hs.
  - destruct (decide (true = true)) as [_|]; [|congruence].
    rewrite prescanTokens_cons, Hs.
    destruct (tokType t); try reflexivity;
      destruct (metaTag (TagAttr t)) as [[e name]|]; try reflexivity; exact IH.
  - destruct (decide (false = true)) as [|_]; [discriminate|]. exact IH.
Qed.

End MoreMetaFacts.

(** X4. Of the attributes of a meta tag only the first of each name
    counts: the tag yields what it yields without the repeated ones. *)
Theorem metaTag_first_occurrences `{lib : Library} (attrs : list (list byte * list byte)) :
  metaTag attrs = metaTag (firstOccurrences [] attrs).
Proof. rewrite !metaTag_afterAttrs. now rewrite <- afterAttrs_firstOccurrences. Qed.

(** X5. The scan folds attribute values to lower case: two tags whose
    attributes have the same names and values equal up to the case of
    ASCII letters yield the same. *)
Theorem metaTag_case_insensitive `{lib : Library}
    (attrs1 attrs2 : list (list byte * list byte)) :
  Forall2 sameUpToCase attrs1 attrs2 -> metaTag attrs1 = metaTag attrs2.
Proof.
  intros H. rewrite !metaTag_afterAttrs. now rewrite (afterAttrs_sameUpToCase _ _ H).
Qed.

Lemma metaTag_case_insensitive_witness :
  metaTag (lib := Demo.demoLib) [(bytesOf "charset", bytesOf "ISO-8859-1")]
  = metaTag (lib := Demo.demoLib) [(bytesOf "charset", bytesOf "iso-8859-1")].
Proof.
  apply (metaTag_case_insensitive (lib := Demo.demoLib)).
  repeat constructor.
Defined.

(** X6. An encoding that a meta tag yields is an entry of the registry,
    recoded when its name begins with ["utf-16"]; with a registry that
    knows no label the scan yields nothing. *)
Theorem prescan_from_registry `{lib : Library} :
  (forall attrs found,
      metaTag attrs = Some found ->
      exists label entry, Lookup label = Some entry /\ found = recode entry)
  /\ ((forall label, Lookup label = None) ->
      forall tokens, prescanTokens tokens = (None, "")).
Proof.
  split; [exact metaTag_from_registry|].
  intros Hempty tokens.
  induction tokens as [|t tokens IH]; [reflexivity|].
  rewrite prescanTokens_cons.
  destruct (scanned t); [|exact IH].
  destruct (tokType t); try reflexivity;
    (destruct (metaTag (TagAttr t)) as [found|] eqn:Hfound; [|exact IH];
     destruct (metaTag_from_registry _ _ Hfound) as (label & entry & Hreg & _);
     rewrite Hempty in Hreg; discriminate).
Qed.

Lemma prescan_from_registry_witness :
  exists label entry,
    Lookup (Library := Demo.demoLib) label = Some entry
    /\ (Demo.demoNop, "utf-8") = recode (lib := Demo.demoLib) entry.
Proof.
  apply (proj1 (prescan_from_registry (lib := Demo.demoLib))
           [(bytesOf "charset", bytesOf "UTF-16")]).
  reflexivity.
Defined.

(** X7. The scan ends at the first error token and at the first meta tag
    that yields an encoding, whatever comes after; tokens that are
    neither the error token nor a meta tag have no influence at all. *)
Theorem prescan_stops_early `{lib : Library} :
  (forall skipped t rest,
      Forall passedOver skipped ->
      tokType t = ErrorToken ->
      prescanTokens (skipped ++ t :: rest) = (None, ""))
  /\ (forall skipped t rest found,
         Forall passedOver skipped ->
         isMetaTag t = true ->
         metaTag (TagAttr t) = Some found ->
         prescanTokens (skipped ++ t :: rest) = (Some found.1, found.2))
  /\ (forall tokens,
         prescanTokens tokens = prescanTokens (filter (fun t => scanned t = true) tokens)).
Proof.
  split; [|split].
  - intros skipped t rest Hskip Htype.
    rewrite prescanTokens_passedOver by exact Hskip.
    cbn [prescanTokens]. now rewrite Htype.
  - intros skipped t rest [e name] Hskip Hmeta Hfound.
    rewrite prescanTokens_passedOver by exact Hskip.
    cbn [prescanTokens]. unfold isMetaTag in Hmeta.
    destruct (tokType t); try discriminate; now rewrite Hmeta, Hfound.
  - exact prescanTokens_scanned.
Qed.

Lemma prescan_stops_early_witness :
  prescanTokens (lib := Demo.demoLib)
    [Demo.textToken; Demo.metaToken [("charset", "iso-8859-1")];
     Demo.metaToken [("charset", "utf-16")]]
  = (Some Demo.demoLatin1, "iso-8859-1").
Proof.
  apply (proj1 (proj2 (prescan_stops_early (lib := Demo.demoLib)))
           [Demo.textToken] (Demo.metaToken [("charset", "iso-8859-1")])
           [Demo.metaToken [("charset", "utf-16")]] (Demo.demoLatin1, "iso-8859-1")).
  - constructor; [|constructor]. split; [discriminate|]. cbn. discriminate.
  - reflexivity.
  - reflexivity.
Defined.

(** ** More on the resolver *)

Lemma continuation_high (c : byte) :
  isContinuation c = true -> (byteN c <? 0x80)%N = false.
Proof. destruct c; intros H; try reflexivity; discriminate H. Qed.

Lemma scanBack_cut (n : nat) :
  forall reversed before,
    scanBack n reversed = Some before ->
    exists conts b,
      reversed = conts ++ b :: before
      /\ length conts < n
      /\ isHigh b = true /\ utf8.RuneStart b = true
      /\ forallb isContinuation conts = true.
Proof.
  induction n as [|n IH]; intros reversed before; [discriminate|].
  destruct reversed as [|b reversed]; [discriminate|]. cbn [scanBack].
  destruct (byteN b <? 0x80)%N eqn:Hlow; [discriminate|].
  destruct (utf8.RuneStart b) eqn:Hstart.
  - intros [= <-]. exists [], b. repeat split; try assumption; [cbn; lia|].
    unfold isHigh. apply N.ltb_ge in Hlow. now apply N.leb_le.
  - intros H. destruct (IH _ _ H) as (conts & b' & -> & Hlen & Hhigh & Hb' & Hconts).
    exists (b :: conts), b'. repeat split; try assumption; [cbn; lia|].
    cbn [forallb]. unfold isContinuation at 1. now rewrite Hstart.
Qed.

Lemma scanBack_over (conts : list byte) :
  forall n b rest,
    forallb isContinuation conts = true ->
    length conts < n ->
    isHigh b = true -> utf8.RuneStart b = true ->
    scanBack n (conts ++ b :: rest) = Some rest.
Proof.
  induction conts as [|c conts IH]; intros n b rest Hconts Hlen Hhigh Hstart.
  - destruct n as [|n]; [cbn in Hlen; lia|]. cbn [app scanBack].
    unfold isHigh in Hhigh. apply N.leb_le in Hhigh.
    destruct (N.ltb_spec (byteN b) 0x80); [lia|]. now rewrite Hstart.
  - destruct n as [|n]; [cbn in Hlen; lia|]. cbn [app scanBack].
    cbn [forallb] in Hconts. apply andb_true_iff in Hconts as [Hc Hconts].
    rewrite (continuation_high _ Hc).
    unfold isContinuation in Hc. apply negb_true_iff in Hc. rewrite Hc.
    apply IH; try assumption. cbn in Hlen. lia.
Qed.

Lemma forallb_rev {A} (f : A -> bool) (l : list A) : forallb f (rev l) = forallb f l.
Proof.
  induction l as [|x l IH]; [reflexivity|]. cbn [rev forallb].
  rewrite forallb_app, IH. cbn. rewrite andb_true_r. apply andb_comm.
Qed.

Lemma trimmed_cut (content : list byte) :
  exists suffix,
    content = trimmed content ++ suffix /\ length suffix <= 3 /\ runeTail suffix.
Proof.
  unfold trimmed. destruct (scanBack 3 (rev content)) as [before|] eqn:Hscan.
  - destruct (scanBack_cut _ _ _ Hscan) as (conts & b & Hrev & Hlen & Hhigh & Hstart & Hconts).
    exists (b :: rev conts). split; [|split].
    + rewrite <- (rev_involutive content), Hrev, rev_app_distr. cbn [rev].
      now rewrite <- app_assoc.
    + cbn. rewrite length_rev. lia.
    + cbn [runeTail]. now rewrite forallb_rev.
  - exists []. rewrite app_nil_r. repeat split. cbn. lia.
Qed.

Lemma trimmed_ends_ascii (p : list byte) (a : byte) :
  (byteN a <? 0x80)%N = true -> trimmed (p ++ [a]) = p ++ [a].
Proof.
  intros Ha. unfold trimmed. rewrite rev_unit. cbn [scanBack]. now rewrite Ha.
Qed.

Lemma trimmed_last_rune (p : list byte) (b : byte) (conts : list byte) :
  isHigh b = true -> utf8.RuneStart b = true ->
  forallb isContinuation conts = true -> length conts <= 2 ->
  trimmed (p ++ b :: conts) = p.
Proof.
  intros Hhigh Hstart Hconts Hlen. unfold trimmed.
  rewrite rev_app_distr. cbn [rev]. rewrite <- app_assoc. cbn [app].
  rewrite scanBack_over; try assumption.
  - apply rev_involutive.
  - now rewrite forallb_rev.
  - rewrite length_rev. lia.
Qed.

Section MoreResolverFacts.
Context {lib : Library}.

Lemma determineEncoding_no_mark (content : list byte) (contentType : string) :
  bomLabel (take previewSize content) = None ->
  declaredCharset contentType = None ->
  acceptedMeta (take previewSize content) = None ->
  determineEncoding content contentType
  = if existsb (fun b => (0x80 <=? byteN b)%N) (trimmed (take previewSize content))
       && utf8.Valid (trimmed (take previewSize content))
    then (Some Nop, "utf-8", false)
    else (Some ISO8859_1, "ISO 8859-1", false).
Proof.
  intros Hbom Hdecl Hmeta. rewrite determineEncoding_resolveRules.
  unfold resolveRules. now rewrite Hbom, Hdecl, Hmeta.
Qed.

Lemma determineEncoding_nil (content : list byte) (contentType : string)
    (name : string) (certain : bool) :
  determineEncoding content contentType = (None, name, certain) ->
  exists label, bomLabel (take previewSize content) = Some label /\ Lookup label = None.
Proof.
  rewrite determineEncoding_resolveRules. unfold resolveRules.
  destruct (bomLabel (take previewSize content)) as [label|].
  - unfold lookupPair. destruct (Lookup label) as [[e n]|] eqn:Hreg; [discriminate|].
    intros _. now exists label.
  - destruct (declaredCharset contentType) as [[e n]|]; [discriminate|].
    destruct (acceptedMeta _) as [[e n]|]; [discriminate|].
    destruct (_ && _); discriminate.
Qed.

Lemma bomLabel_in_boms (content : list byte) (label : string) :
  bomLabel content = Some label -> exists sig, (sig, label) ∈ boms.
Proof.
  unfold bomLabel, boms.
  repeat match goal with
         | |- context [startsWith ?sig content] => destruct (startsWith sig content)
         end; intros [= <-]; eexists; repeat first [now left | right].
Qed.

End MoreResolverFacts.

(** X8. The loop that removes a partial rune cuts the content only at
    its end, by at most three bytes, and what it cuts is a rune-start
    byte at or above 0x80 followed by continuation bytes. *)
Theorem trimPartialRune_cuts_tail (content : list byte) :
  exists suffix,
    content = trimPartialRune content ++ suffix
    /\ length suffix <= 3
    /\ runeTail suffix.
Proof. rewrite trimPartialRune_trimmed. apply trimmed_cut. Qed.

(** X9. [determineEncoding] reports [certain = true] exactly when the
    lookahead begins with a byte order mark or the declared content type
    names a charset the registry knows. *)
Theorem determineEncoding_certain `{lib : Library} (content : list byte) (contentType : string) :
  (determineEncoding content contentType).2 = true
  <-> bomLabel (take previewSize content) <> None \/ declaredCharset contentType <> None.
Proof.
  rewrite determineEncoding_resolveRules. unfold resolveRules.
  destruct (bomLabel (take previewSize content)) as [label|].
  { cbn. split; [intros _; left; discriminate|reflexivity]. }
  destruct (declaredCharset contentType) as [[e n]|].
  { cbn. split; [intros _; right; discriminate|reflexivity]. }
  destruct (acceptedMeta _) as [[e n]|]; [|destruct (_ && _)];
    cbn; (split; [discriminate|intros [H|H]; congruence]).
Qed.

(** X10. [determineEncoding] returns a nil encoding only for a byte order
    mark whose label the registry does not know; when the three labels of
    [boms] are registered it always returns an encoding, and [newReader]
    never calls a method on nil. *)
Theorem determineEncoding_never_nil `{lib : Library} :
  (forall sig label, (sig, label) ∈ boms -> Lookup label <> None) ->
  (forall content contentType, (determineEncoding content contentType).1.1 <> None)
  /\ (forall r contentType v, (newReader r contentType).2 <> Panics v).
Proof.
  intros Hreg.
  assert (Hsome : forall content contentType,
             (determineEncoding content contentType).1.1 <> None).
  { intros content contentType.
    destruct (determineEncoding content contentType) as [[[e|] name] certain] eqn:Hres;
      [discriminate|].
    destruct (determineEncoding_nil _ _ _ _ Hres) as (label & Hbom & Hnone).
    destruct (bomLabel_in_boms _ _ Hbom) as [sig Hin].
    destruct (Hreg sig label Hin Hnone). }
  split; [exact Hsome|].
  intros r contentType v. unfold newReader.
  destruct (ReadFull r (make previewSize)) as [[[n preview] err] r'].
  destruct err as [[| |what]|]; cbn; try discriminate;
    match goal with
    | |- context [determineEncoding ?c contentType] =>
        pose proof (Hsome c contentType) as H;
        destruct (determineEncoding c contentType) as [[[e|] name] certain];
        [destruct (decide (e = Nop)); discriminate|now destruct H]
    end.
Qed.

Lemma determineEncoding_never_nil_witness :
  (determineEncoding (lib := Demo.demoLib) [xfe; xff; x00; x61] "").1.1 <> None.
Proof.
  apply (determineEncoding_never_nil (lib := Demo.demoLib)).
  intros sig label Hin. unfold boms in Hin.
  repeat (apply elem_of_cons in Hin as [Hin|Hin]; [injection Hin as -> ->; discriminate|]).
  now apply not_elem_of_nil in Hin.
Defined.

(** X11. A text whose only bytes at or above 0x80 are those of its last
    rune resolves to ISO-8859-1, not to UTF-8: the rune is cut off before
    the test for a high bit. *)
Theorem determineEncoding_single_trailing_rune `{lib : Library}
    (p : list byte) (b : byte) (conts : list byte) (contentType : string) :
  allASCII p = true ->
  isHigh b = true -> utf8.RuneStart b = true ->
  forallb isContinuation conts = true -> length conts <= 2 ->
  length (p ++ b :: conts) <= previewSize ->
  bomLabel (p ++ b :: conts) = None ->
  declaredCharset contentType = None ->
  acceptedMeta (p ++ b :: conts) = None ->
  determineEncoding (p ++ b :: conts) contentType = (Some ISO8859_1, "ISO 8859-1", false).
Proof.
  intros Hascii Hhigh Hstart Hconts Hlen Hcap Hbom Hdecl Hmeta.
  assert (Htake : take previewSize (p ++ b :: conts) = p ++ b :: conts)
    by (apply take_ge; lia).
  rewrite determineEncoding_no_mark by now rewrite ?Htake.
  rewrite Htake, trimmed_last_rune by assumption.
  now rewrite (allASCII_no_high _ Hascii).
Qed.

Lemma determineEncoding_single_trailing_rune_witness :
  determineEncoding (lib := Demo.demoLib) [x63; x61; x66; xc3; xa9] ""
  = (Some Demo.demoLatin1, "ISO 8859-1", false).
Proof.
  apply (determineEncoding_single_trailing_rune (lib := Demo.demoLib)
           [x63; x61; x66] xc3 [xa9] ""); try reflexivity.
  - cbn. lia.
  - pose proof previewSize_ge. cbn. lia.
Defined.

(** X12. For a content that ends in an ASCII byte, with no byte order
    mark, no recognized content type and no accepted meta tag, nothing is
    cut: the resolver answers the no-op encoding exactly when the content
    holds a byte at or above 0x80 and is valid UTF-8, and ISO-8859-1
    otherwise. *)
Theorem determineEncoding_ascii_ending `{lib : Library}
    (p : list byte) (a : byte) (contentType : string) :
  (byteN a <? 0x80)%N = true ->
  length (p ++ [a]) <= previewSize ->
  bomLabel (p ++ [a]) = None ->
  declaredCharset contentType = None ->
  acceptedMeta (p ++ [a]) = None ->
  determineEncoding (p ++ [a]) contentType
  = if existsb isHigh p && utf8.Valid (p ++ [a])
    then (Some Nop, "utf-8", false)
    else (Some ISO8859_1, "ISO 8859-1", false).
Proof.
  intros Ha Hcap Hbom Hdecl Hmeta.
  assert (Htake : take previewSize (p ++ [a]) = p ++ [a]) by (apply take_ge; lia).
  rewrite determineEncoding_no_mark by now rewrite ?Htake.
  rewrite Htake, trimmed_ends_ascii by assumption.
  rewrite existsb_app. cbn [existsb]. apply N.ltb_lt in Ha.
  destruct (N.leb_spec 0x80 (byteN a)); [lia|].
  now rewrite !orb_false_r.
Qed.

Lemma determineEncoding_ascii_ending_witness :
  determineEncoding (lib := Demo.demoLib) [x63; xc3; xa9; x21] ""
  = (Some Demo.demoNop, "utf-8", false).
Proof.
  apply (determineEncoding_ascii_ending (lib := Demo.demoLib) [x63; xc3; xa9] x21 "");
    try reflexivity.
  pose proof previewSize_ge. cbn. lia.
Defined.

(** ** More on the readers *)

Lemma startsWith_utf8bom (p : list byte) :
  startsWith utf8bom p = true <-> exists rest, p = utf8bom ++ rest.
Proof.
  unfold startsWith. rewrite bool_decide_eq_true. split.
  - intros H. exists (drop 3 p). rewrite <- H at 1.
    change (length utf8bom) with 3. now rewrite take_drop.
  - intros [rest ->]. reflexivity.
Qed.

Lemma notUTF8BOM_startsWith (p : list byte) :
  notUTF8BOM p = negb (startsWith utf8bom p).
Proof.
  destruct (startsWith utf8bom p) eqn:H.
  - apply startsWith_utf8bom in H as [rest ->]. reflexivity.
  - destruct (notUTF8BOM p) eqn:Hn; [reflexivity|].
    destruct p as [|a [|b [|c p]]]; try discriminate.
    cbn in Hn. apply orb_false_iff in Hn as [Hab Hc].
    apply orb_false_iff in Hab as [Ha Hb].
    apply negb_false_iff, byte_eqb_eq in Ha, Hb, Hc. subst.
    discriminate H.
Qed.

Lemma discardBOM_long (p : list byte) (fin : error) :
  3 <= length p ->
  discardBOM (mkReader p fin) = Returns (mkReader (stripUTF8BOM p) fin).
Proof.
  intros Hlen. unfold stripUTF8BOM.
  destruct (startsWith utf8bom p) eqn:Hbom.
  - apply startsWith_utf8bom in Hbom as [rest ->]. apply discardBOM_bom.
  - pose proof (notUTF8BOM_startsWith p) as Hn. rewrite Hbom in Hn. cbn in Hn.
    destruct p as [|a [|b [|c p]]]; cbn in Hlen; try lia.
    unfold discardBOM. rewrite ReadFull_enough by (cbn; lia).
    change (notUTF8BOM (a :: b :: c :: p)) with (notUTF8BOM [a; b; c]) in Hn.
    cbn -[notUTF8BOM]. rewrite take_0, drop_0. cbn -[notUTF8BOM].
    rewrite Hn. reflexivity.
Qed.

Lemma discardBOM_current_long (p : list byte) (fin : error) :
  3 <= length p ->
  discardBOM_current (mkReader p fin) = Returns (mkReader (stripUTF8BOM p) fin).
Proof.
  intros Hlen. rewrite <- discardBOM_long by exact Hlen.
  unfold discardBOM, discardBOM_current.
  rewrite ReadFull_enough by (cbn; lia). reflexivity.
Qed.

Lemma stripUTF8BOM_short (p : list byte) : length p < 3 -> stripUTF8BOM p = p.
Proof.
  intros Hlen. unfold stripUTF8BOM.
  destruct (startsWith utf8bom p) eqn:H; [|reflexivity].
  apply startsWith_utf8bom in H as [rest ->]. cbn in Hlen. lia.
Qed.

Lemma discardBOM_bytes_exact (p : list byte) :
  discardBOM (bytes_NewReader p) = Returns (bytes_NewReader (stripUTF8BOM p)).
Proof.
  destruct (le_lt_dec 3 (length p)) as [Hlen|Hlen].
  - now apply discardBOM_long.
  - rewrite stripUTF8BOM_short by exact Hlen. now apply discardBOM_short.
Qed.

Lemma discardBOM_short_failing (p : list byte) (what : string) :
  length p < 3 ->
  discardBOM (mkReader p (Failure what)) = Panics (PanicError (Failure what)).
Proof.
  intros Hlen. destruct p as [|a [|b [|c p]]]; cbn in Hlen; try lia; reflexivity.
Qed.

Lemma discardBOM_short_unexpected (p : list byte) :
  length p < 3 ->
  discardBOM (mkReader p ErrUnexpectedEOF) = Returns (bytes_NewReader p).
Proof.
  intros Hlen. destruct p as [|a [|b [|c p]]]; cbn in Hlen; try lia; reflexivity.
Qed.

Section MoreReaderFacts.
Context {lib : Library}.

Lemma newReader_general (r : Reader) (contentType : string) :
  newReader r contentType
  = (mkReader (drop previewSize (pending r)) (final r),
     if primingFails r then Returns (Err (final r)) else resolved r contentType).
Proof.
  unfold primingFails.
  destruct (Nat.ltb_spec (length (pending r)) previewSize) as [Hshort|Hlong]; cbn [andb].
  - rewrite (drop_ge (pending r)) by lia.
    destruct r as [p fin]. cbn [pending final] in *.
    destruct p as [|b p].
    + destruct fin.
      * apply (newReader_failing (mkReader [] EOF)); [exact Hshort|exact I].
      * unfold newReader, resolved. rewrite ReadFull_short by exact Hshort.
        cbn [pending final]. rewrite take_0, take_nil. cbn [app].
        unfold MultiReader, bytes_NewReader. cbn [final pending app].
        destruct (determineEncoding [] contentType) as [[[e|] name] certain];
          [destruct (decide (e = Nop))|]; reflexivity.
      * apply (newReader_failing (mkReader [] (Failure what))); [exact Hshort|exact I].
    + destruct fin.
      * now rewrite newReader_partial by (cbn in *; try lia; reflexivity).
      * unfold newReader, resolved. rewrite ReadFull_short by exact Hshort.
        cbn [pending final]. rewrite take_app_length, (take_ge (b :: p)) by lia.
        unfold MultiReader, bytes_NewReader. cbn [final pending]. rewrite app_nil_r.
        destruct (determineEncoding (b :: p) contentType) as [[[e|] name] certain];
          [destruct (decide (e = Nop))|]; reflexivity.
      * apply (newReader_failing (mkReader (b :: p) (Failure what))); [exact Hshort|exact I].
  - unfold newReader, resolved. rewrite ReadFull_enough by exact Hlong.
    unfold MultiReader, bytes_NewReader. cbn [final pending]. rewrite take_drop.
    destruct r as [p fin]. cbn [pending final].
    destruct (determineEncoding (take previewSize p) contentType) as [[[e|] name] certain];
      [destruct (decide (e = Nop))|]; reflexivity.
Qed.

Lemma determineEncoding_some (content : list byte) (contentType : string) :
  bomsRegistered ->
  exists e name certain, determineEncoding content contentType = (Some e, name, certain).
Proof.
  intros Hreg.
  destruct (determineEncoding content contentType) as [[[e|] name] certain] eqn:Hres;
    [eauto|].
  destruct (determineEncoding_nil _ _ _ _ Hres) as (label & Hbom & Hnone).
  destruct (bomLabel_in_boms _ _ Hbom) as [sig Hin].
  destruct (Hreg sig label Hin Hnone).
Qed.

End MoreReaderFacts.

(** X13. [newReader] returns an error exactly when its first read fails,
    and the error is then that of the source.  It returns a reader
    exactly when the first read succeeds and the resolver names an
    encoding; that reader delivers the whole source again, lookahead
    included: it is the source itself for the no-op encoding, and the
    source through the decoder of the resolved encoding else.  The
    caller's reader is left advanced by the lookahead. *)
Theorem newReader_replays_source `{lib : Library} (r : Reader) (contentType : string) :
  (newReader r contentType).1 = mkReader (drop previewSize (pending r)) (final r)
  /\ (forall err,
         (newReader r contentType).2 = Returns (Err err)
         <-> primingFails r = true /\ err = final r)
  /\ (forall nr,
         (newReader r contentType).2 = Returns (Ok nr)
         <-> primingFails r = false
             /\ exists e name certain,
                  determineEncoding (take previewSize (pending r)) contentType
                  = (Some e, name, certain)
                  /\ nr = if decide (e = Nop) then r
                          else transform_NewReader r (NewDecoder e)).
Proof.
  rewrite newReader_general. cbn [fst snd]. split; [reflexivity|]. split.
  - intros err. destruct (primingFails r); split.
    + intros [= <-]. now split.
    + now intros [_ ->].
    + unfold resolved.
      destruct (determineEncoding _ contentType) as [[[e|] name] certain];
        [destruct (decide (e = Nop))|]; discriminate.
    + intros [H _]. discriminate H.
  - intros nr. destruct (primingFails r); split.
    + discriminate.
    + intros [H _]. discriminate H.
    + unfold resolved.
      destruct (determineEncoding _ contentType) as [[[e|] name] certain]; [|discriminate].
      intros Hnr. split; [reflexivity|]. exists e, name, certain. split; [reflexivity|].
      destruct (decide (e = Nop)); now injection Hnr as <-.
    + intros (_ & e & name & certain & Hres & ->). unfold resolved. rewrite Hres.
      now destruct (decide (e = Nop)).
Qed.

Lemma newReader_replays_source_witness :
  (newReader (lib := Demo.demoLib) (bytes_NewReader pinguino) "").2
  = Returns (Ok (bytes_NewReader pinguino))
  /\ ReadAll (bytes_NewReader pinguino) = (pinguino, None)
  /\ (newReader (lib := Demo.demoLib) (mkReader [x61] (Failure "read error")) "").2
     = Returns (Err (Failure "read error")).
Proof.
  split; [|split].
  - apply (proj2 (proj2 (newReader_replays_source (lib := Demo.demoLib)
                           (bytes_NewReader pinguino) ""))).
    split; [reflexivity|].
    exists Demo.demoNop, "utf-8", false. split; [vm_compute; reflexivity|reflexivity].
  - reflexivity.
  - apply (proj1 (proj2 (newReader_replays_source (lib := Demo.demoLib)
                           (mkReader [x61] (Failure "read error")) ""))).
    split; reflexivity.
Defined.

(** X14. On a non-empty stream of bytes [NewReader] (revision with the
    local resolver) resolves the encoding on the lookahead, decodes the
    whole stream with it, and removes one UTF-8 byte order mark from the
    head of what the decoder gives, in this order. *)
Theorem NewReader_three_passes `{lib : Library}
    (input : list byte) (e : Encoding) (name : string) (certain : bool) :
  input <> [] ->
  determineEncoding (take previewSize input) "" = (Some e, name, certain) ->
  e = Nop \/ (NewDecoder e input).2 = None ->
  output (Local.NewReader (bytes_NewReader input))
  = Some (stripUTF8BOM (if decide (e = Nop) then input else (NewDecoder e input).1), None).
Proof.
  intros Hne Hres Hdec.
  rewrite (Local_NewReader_resolved input e name certain Hne Hres).
  destruct (decide (e = Nop)) as [_|Hnot].
  - now rewrite discardBOM_bytes_exact.
  - destruct Hdec as [->|Hdec]; [congruence|].
    rewrite transform_bytes by exact Hdec. now rewrite discardBOM_bytes_exact.
Qed.

Lemma NewReader_three_passes_witness :
  output (Local.NewReader (lib := Demo.demoLib) (bytes_NewReader [xff; xfe; x61; x00]))
  = Some ([x61], None).
Proof.
  apply (NewReader_three_passes (lib := Demo.demoLib) [xff; xfe; x61; x00]
           (Demo.demoUTF16 false) "utf-16le" true).
  - discriminate.
  - vm_compute. reflexivity.
  - right. reflexivity.
Defined.

(** X15. The block that discards the byte order mark in the two earlier
    revisions: from a stream of three bytes or more it removes a leading
    EF BB BF and nothing else, and leaves the end of the stream as it
    was, an error included; a shorter stream comes back whole when it
    simply ends; a shorter stream that ends with another error makes the
    block panic with that error. *)
Theorem discardBOM_behaviour :
  (forall p fin, 3 <= length p ->
     discardBOM (mkReader p fin) = Returns (mkReader (stripUTF8BOM p) fin))
  /\ (forall p, length p < 3 ->
        discardBOM (mkReader p EOF) = Returns (mkReader p EOF)
        /\ discardBOM (mkReader p ErrUnexpectedEOF) = Returns (mkReader p EOF))
  /\ (forall p what, length p < 3 ->
        discardBOM (mkReader p (Failure what)) = Panics (PanicError (Failure what))).
Proof.
  split; [exact discardBOM_long|]. split.
  - intros p Hlen. split.
    + now apply discardBOM_short.
    + now apply discardBOM_short_unexpected.
  - exact discardBOM_short_failing.
Qed.

Lemma discardBOM_behaviour_witness :
  discardBOM (mkReader [xef; xbb; xbf; x61] (Failure "late"))
  = Returns (mkReader [x61] (Failure "late"))
  /\ discardBOM (mkReader [x61] (Failure "early")) = Panics (PanicError (Failure "early")).
Proof.
  destruct discardBOM_behaviour as (Hlong & _ & Hfail). split.
  - apply (Hlong [xef; xbb; xbf; x61] (Failure "late")). cbn. lia.
  - apply (Hfail [x61] "early"). cbn. lia.
Defined.

(** X16. When the registry knows the labels of the byte order marks and
    no decoder reports an error, [NewReader] (revision with the local
    resolver) does not panic on any stream of bytes, and the stream it
    returns ends without an error. *)
Theorem NewReader_total `{lib : Library} (input : list byte) :
  bomsRegistered -> decodersNeverFail ->
  exists out, output (Local.NewReader (bytes_NewReader input)) = Some (out, None).
Proof.
  intros Hreg Hdec.
  destruct input as [|b input]; [exists []; now rewrite Local_NewReader_empty|].
  destruct (determineEncoding_some (take previewSize (b :: input)) "" Hreg)
    as (e & name & certain & Hres).
  rewrite (Local_NewReader_resolved (b :: input) e name certain ltac:(discriminate) Hres).
  destruct (decide (e = Nop)).
  - rewrite discardBOM_bytes_exact. eauto.
  - rewrite transform_bytes by apply Hdec. rewrite discardBOM_bytes_exact. eauto.
Qed.

Lemma NewReader_total_witness :
  exists out,
    output (Local.NewReader (lib := Demo.demoLib) (bytes_NewReader [xfe; xff; x00]))
    = Some (out, None).
Proof.
  apply (NewReader_total (lib := Demo.demoLib) [xfe; xff; x00]).
  - intros sig label Hin. unfold boms in Hin.
    repeat (apply elem_of_cons in Hin as [Hin|Hin]; [injection Hin as -> ->; discriminate|]).
    now apply not_elem_of_nil in Hin.
  - intros e src. destruct e; reflexivity.
Defined.

(** X17. The block that discards the byte order mark in the current
    revision never panics, whatever the stream and its end: from three
    bytes or more it removes a leading EF BB BF and nothing else; from
    fewer it hands back the drained reader, so that the bytes read are
    gone and only the end of the stream is left. *)
Theorem discardBOM_current_behaviour (nr : Reader) :
  discardBOM_current nr
  = Returns (if (length (pending nr) <? 3)%nat then mkReader [] (final nr)
             else mkReader (stripUTF8BOM (pending nr)) (final nr)).
Proof.
  destruct nr as [p fin]. cbn [pending final].
  destruct (Nat.ltb_spec (length p) 3).
  - now apply discardBOM_current_short.
  - now apply discardBOM_current_long.
Qed.

(** X18. The current revision and the earliest one, which call the same
    [charset.NewReader], do the same whenever that call fails, panics, or
    returns a stream that is empty or at least three bytes long. *)
Theorem NewReader_revisions_agree
    (open : Reader -> string -> Reader * Outcome (Result Reader)) (r : Reader) :
  (forall nr, (open r "").2 = Returns (Ok nr) ->
              nr = bytes_NewReader [] \/ 3 <= length (pending nr)) ->
  Current.NewReader open r = Earlier.NewReader open r.
Proof.
  intros Hnr. unfold Current.NewReader, Earlier.NewReader, NewReaderWith.
  destruct (open r "") as [r' [[nr|err]|v]]; try reflexivity.
  destruct (Hnr nr eq_refl) as [->|Hlen]; [reflexivity|].
  destruct nr as [p fin]. cbn [pending] in Hlen.
  now rewrite discardBOM_current_long, discardBOM_long.
Qed.

Lemma NewReader_revisions_agree_witness :
  Current.NewReader Demo.demoOpen (bytes_NewReader (bytesOf "abcd"))
  = Earlier.NewReader Demo.demoOpen (bytes_NewReader (bytesOf "abcd")).
Proof.
  apply (NewReader_revisions_agree Demo.demoOpen (bytes_NewReader (bytesOf "abcd"))).
  intros nr Hnr. right.
  assert (Hval : (Demo.demoOpen (bytes_NewReader (bytesOf "abcd")) "").2
                 = Returns (Ok (bytes_NewReader (bytesOf "abcd"))))
    by (vm_compute; reflexivity).
  rewrite Hval in Hnr. injection Hnr as <-. cbn. lia.
Defined.

(** ** The wrappers around [os.Open] *)

(** X19. [Open] returns an error value only for a failure of [os.Open],
    and that same failure makes [MustOpen] and [MustOpenAndClose] panic;
    [MustOpen] returns exactly when [Open] returns a reader, and the same
    one; [MustOpenAndClose] returns the reader [MustOpen] returns,
    together with the closure of the opened file, which panics with the
    error of [Sync] when there is one, else with the error of [Close],
    and returns when there is neither. *)
Theorem wrappers_behaviour
    (open : Reader -> string -> Reader * Outcome (Result Reader))
    (os_Open : string -> Result File) (name : string) :
  (forall err,
      Current.Open open os_Open name = Returns (Err err) <-> os_Open name = Err err)
  /\ (forall err,
         os_Open name = Err err ->
         Current.MustOpen open os_Open name = Panics (PanicError err)
         /\ Current.MustOpenAndClose open os_Open name = Panics (PanicError err))
  /\ (forall r,
         Current.MustOpen open os_Open name = Returns r
         <-> Current.Open open os_Open name = Returns (Ok r))
  /\ (forall r closer,
         Current.MustOpenAndClose open os_Open name = Returns (r, closer) ->
         Current.MustOpen open os_Open name = Returns r
         /\ exists file,
              os_Open name = Ok file
              /\ closer = match fileSync file, fileClose file with
                          | Some err, _ => Panics (PanicError err)
                          | None, Some err => Panics (PanicError err)
                          | None, None => Returns tt
                          end).
Proof.
  unfold Current.MustOpen, Current.MustOpenAndClose, Current.Open.
  destruct (os_Open name) as [file|oerr].
  - destruct (Current.NewReader open (fileReader file)) as [nr|v].
    + split; [intros err; split; discriminate|].
      split; [intros err; discriminate|].
      split; [intros r; split; intros [= ->]; reflexivity|].
      intros r closer [= <- <-]. split; [reflexivity|].
      exists file. split; [reflexivity|].
      unfold syncAndClose. destruct (fileSync file), (fileClose file); reflexivity.
    + split; [intros err; split; discriminate|].
      split; [intros err; discriminate|].
      split; [intros r; split; discriminate|].
      intros r closer. discriminate.
  - split; [intros err; split; intros [= ->]; reflexivity|].
    split; [intros err [= ->]; split; reflexivity|].
    split; [intros r; split; discriminate|].
    intros r closer. discriminate.
Qed.

Lemma wrappers_behaviour_witness :
  Current.MustOpen Demo.demoOpen Demo.demoOsOpen "missing.txt"
  = Panics (PanicError (Failure "no such file")).
Proof.
  apply (wrappers_behaviour Demo.demoOpen Demo.demoOsOpen "missing.txt").
  reflexivity.
Defined.

(** ** [equalSlice] *)

Lemma equalSliceLoop_drop (count : nat) :
  forall (i : nat) (a b : list byte),
    i + count = length a -> length a = length b ->
    (equalSliceLoop count i a b = true <-> drop i a = drop i b).
Proof.
  induction count as [|count IH]; intros i a b Hi Hlen.
  - cbn. rewrite !drop_ge by lia. split; reflexivity.
  - cbn [equalSliceLoop].
    destruct (lookup_lt_is_Some_2 a i ltac:(lia)) as [x Hx].
    destruct (lookup_lt_is_Some_2 b i ltac:(lia)) as [y Hy].
    rewrite Hx, Hy, (drop_S a x i Hx), (drop_S b y i Hy).
    destruct (Byte.eqb x y) eqn:Hxy; cbn [negb].
    + apply byte_eqb_eq in Hxy. subst y. rewrite (IH (S i) a b) by lia.
      split; [intros ->; reflexivity|intros [= H]; exact H].
    + split; [discriminate|]. intros [= H _]. subst y.
      rewrite (proj2 (byte_eqb_eq x x) eq_refl) in Hxy. discriminate.
Qed.

(** X20. [equalSlice] of the test file is true exactly for two equal
    slices. *)
Theorem equalSlice_correct (a b : list byte) : equalSlice a b = true <-> a = b.
Proof.
  unfold equalSlice. destruct (Nat.eqb_spec (length a) (length b)) as [Hlen|Hne]; cbn [negb].
  - rewrite (equalSliceLoop_drop (length a) 0 a b) by (cbn; lia). now rewrite !drop_0.
  - split; [discriminate|]. intros ->. congruence.
Qed.

(** * The byte order mark of UTF-8 and short inputs, through the registry *)

Lemma allBytes_complete (b : byte) : In b allBytes.
Proof.
  assert (H : existsb (Byte.eqb b) allBytes = true) by (destruct b; vm_compute; reflexivity).
  apply existsb_exists in H as (x & Hin & Heq). apply byte_eqb_eq in Heq. now subst.
Qed.

Lemma short_pairs_checked :
  forallb (fun a =>
    forallb (fun b =>
      negb (existsb (fun c => (0x80 <=? byteN c)%N) (trimmed [a; b])
            && utf8.Valid (trimmed [a; b]))) allBytes) allBytes = true.
Proof. vm_compute. reflexivity. Qed.

(** Fewer than three bytes never pass the UTF-8 test of the resolver. *)
Lemma short_not_utf8 (input : list byte) :
  length input < 3 ->
  existsb (fun c => (0x80 <=? byteN c)%N) (trimmed input) && utf8.Valid (trimmed input)
  = false.
Proof.
  destruct input as [|a [|b [|c input]]]; cbn [length]; try lia; intros _.
  - reflexivity.
  - destruct a; reflexivity.
  - pose proof short_pairs_checked as H. rewrite forallb_forall in H.
    specialize (H a (allBytes_complete a)). rewrite forallb_forall in H.
    specialize (H b (allBytes_complete b)). now apply negb_true_iff in H.
Qed.

(** Of the inputs shorter than three bytes, only FE FF and FF FE are a
    byte order mark. *)
Lemma short_bomLabel_none (p : list byte) :
  length p < 3 ->
  bomLabel p = None <-> p <> [xfe; xff] /\ p <> [xff; xfe].
Proof.
  intros Hlen. unfold bomLabel, startsWith.
  change (length [xfe; xff]) with 2. change (length [xff; xfe]) with 2.
  change (length [xef; xbb; xbf]) with 3.
  rewrite !(take_ge p) by lia.
  repeat case_bool_decide; subst; cbn [length] in Hlen; try lia;
    (split; [try discriminate; intros _; split; congruence
            |intros [? ?]; congruence]).
Qed.

Lemma latin1Rune_head (b : byte) :
  exists h t, latin1Rune b = h :: t /\ h <> xef.
Proof. destruct b; vm_compute; eexists _, _; (split; [reflexivity|discriminate]). Qed.

Lemma latin1_no_bom (src : list byte) : stripUTF8BOM (decodeLatin1 src).1 = (decodeLatin1 src).1.
Proof.
  unfold stripUTF8BOM. destruct (startsWith utf8bom (decodeLatin1 src).1) eqn:H; [|reflexivity].
  apply startsWith_utf8bom in H as [rest H]. unfold decodeLatin1 in H. cbn [fst] in H.
  destruct src as [|b src]; [discriminate|]. cbn [map concat] in H.
  destruct (latin1Rune_head b) as (h & t & Hrune & Hh). rewrite Hrune in H.
  injection H as H _. contradiction.
Qed.

(** C1 (amended). For an input that begins with EF BB BF, [NewReader]
    (revision with the local resolver) decodes the whole input with the
    encoding the registry has for ["utf-8"], not at all when that is the
    no-op encoding, and removes a leading EF BB BF from the result.  The
    output is the input without its first three bytes when that encoding
    is the no-op encoding or its decoder leaves the input as it is.  In
    the two revisions that call [charset.NewReader] the output is the
    input without its first three bytes when that call hands the input
    through. *)
Theorem NewReader_strips_utf8_bom `{lib : Library}
    (rest : list byte) (e : Encoding) (name : string) :
  Lookup "utf-8" = Some (e, name) ->
  e = Nop \/ (NewDecoder e (utf8bom ++ rest)).2 = None ->
  output (Local.NewReader (bytes_NewReader (utf8bom ++ rest)))
  = Some (stripUTF8BOM (if decide (e = Nop) then utf8bom ++ rest
                        else (NewDecoder e (utf8bom ++ rest)).1), None)
  /\ (e = Nop \/ (NewDecoder e (utf8bom ++ rest)).1 = utf8bom ++ rest ->
      output (Local.NewReader (bytes_NewReader (utf8bom ++ rest))) = Some (rest, None))
  /\ forall open r',
       open (bytes_NewReader (utf8bom ++ rest)) ""
       = (r', Returns (Ok (bytes_NewReader (utf8bom ++ rest)))) ->
       output (Current.NewReader open (bytes_NewReader (utf8bom ++ rest))) = Some (rest, None)
       /\ output (Earlier.NewReader open (bytes_NewReader (utf8bom ++ rest))) = Some (rest, None).
Proof.
  intros Hreg Hdec.
  assert (Hout : output (Local.NewReader (bytes_NewReader (utf8bom ++ rest)))
                 = Some (stripUTF8BOM (if decide (e = Nop) then utf8bom ++ rest
                                       else (NewDecoder e (utf8bom ++ rest)).1), None)).
  { rewrite (Local_NewReader_resolved (utf8bom ++ rest) e name true).
    - destruct (decide (e = Nop)) as [_|Hne].
      + now rewrite discardBOM_bytes_exact.
      + destruct Hdec as [->|Hdec]; [congruence|].
        rewrite transform_bytes by exact Hdec. now rewrite discardBOM_bytes_exact.
    - discriminate.
    - rewrite take_utf8bom by apply previewSize_ge.
      rewrite determineEncoding_utf8bom. unfold lookupPair. now rewrite Hreg. }
  split; [exact Hout|]. split.
  - intros Hcopy. rewrite Hout.
    destruct (decide (e = Nop)) as [_|Hne]; [reflexivity|].
    destruct Hcopy as [->|Hcopy]; [congruence|]. now rewrite Hcopy.
  - intros open r' Hopen.
    unfold Current.NewReader, Earlier.NewReader, NewReaderWith.
    rewrite Hopen. split; reflexivity.
Qed.

Lemma NewReader_strips_utf8_bom_witness :
  output (Local.NewReader (lib := Replacing.replacingLib)
            (bytes_NewReader (utf8bom ++ pinguino))) = Some (pinguino, None)
  /\ output (Local.NewReader (lib := Demo.demoLib)
               (bytes_NewReader (utf8bom ++ [xff; x61; xc3]))) = Some ([xff; x61; xc3], None).
Proof.
  split.
  - apply (NewReader_strips_utf8_bom (lib := Replacing.replacingLib)
             pinguino Replacing.replUTF8 "utf-8").
    + reflexivity.
    + right. reflexivity.
    + right. vm_compute. reflexivity.
  - apply (NewReader_strips_utf8_bom (lib := Demo.demoLib)
             [xff; x61; xc3] Demo.demoNop "utf-8").
    + reflexivity.
    + left. reflexivity.
    + left. reflexivity.
Defined.

(** C1 as stated fails: with a registry whose decoder for ["utf-8"]
    rewrites ill-formed bytes, the bytes FF 61 after the mark come out as
    EF BF BD 61. *)
Lemma NewReader_utf8_bom_rewritten :
  output (Local.NewReader (lib := Replacing.replacingLib)
            (bytes_NewReader (utf8bom ++ [xff; x61])))
  = Some ([xef; xbf; xbd; x61], None)
  /\ output (Local.NewReader (lib := Replacing.replacingLib)
               (bytes_NewReader (utf8bom ++ [xff; x61])))
     <> Some ([xff; x61], None).
Proof. split; [vm_compute; reflexivity|vm_compute; discriminate]. Qed.

(** C3 (amended). For every input shorter than 3 bytes, [NewReader] of
    the revision with the local resolver does not panic and the stream it
    returns ends without an error.  It delivers exactly the input bytes
    when they are all below 0x80.  An input with no byte order mark,
    that is every one but FE FF and FF FE, comes out decoded from
    ISO-8859-1, whatever its bytes ([charmap.ISO8859_1] being another
    value than [encoding.Nop]).  FE FF and FF FE, the byte order marks of
    UTF-16, come out as the registry's decoder for them gives them,
    without a leading EF BB BF. *)
Theorem NewReader_short_input `{lib : Library} (input : list byte) :
  noMediaType -> latin1Decoder -> utf16Registered ->
  acceptedMeta input = None ->
  length input < 3 ->
  exists out,
    output (Local.NewReader (bytes_NewReader input)) = Some (out, None)
    /\ (allASCII input = true -> out = input)
    /\ (latin1IsNotNop -> bomLabel input = None -> out = (decodeLatin1 input).1)
    /\ (forall label e name,
           bomLabel input = Some label -> Lookup label = Some (e, name) ->
           out = stripUTF8BOM (if decide (e = Nop) then input
                               else (NewDecoder e input).1))
    /\ (bomLabel input = None <-> input <> [xfe; xff] /\ input <> [xff; xfe]).
Proof.
  intros Hmime Hlatin Hutf16 Hmeta Hlen.
  assert (Hmarks := short_bomLabel_none input Hlen).
  cut (exists out,
    output (Local.NewReader (bytes_NewReader input)) = Some (out, None)
    /\ (allASCII input = true -> out = input)
    /\ (latin1IsNotNop -> bomLabel input = None -> out = (decodeLatin1 input).1)
    /\ (forall label e name,
           bomLabel input = Some label -> Lookup label = Some (e, name) ->
           out = stripUTF8BOM (if decide (e = Nop) then input
                               else (NewDecoder e input).1))).
  { intros (out & H1 & H2 & H3 & H4). exists out. repeat (split; [assumption|]).
    exact Hmarks. }
  clear Hmarks.
  destruct (decide (input = [])) as [->|Hne].
  { exists []. rewrite Local_NewReader_empty.
    repeat split; try reflexivity. intros label e name H. discriminate H. }
  assert (Htake : take previewSize input = input).
  { apply take_ge. pose proof previewSize_ge. lia. }
  assert (Hrules := determineEncoding_resolveRules input "").
  unfold resolveRules in Hrules. rewrite Htake, Hmeta in Hrules.
  unfold declaredCharset in Hrules. rewrite Hmime in Hrules.
  destruct (bomLabel input) as [label|] eqn:Hbom.
  - assert (Hwhich : label = "utf-16be" \/ label = "utf-16le").
    { destruct (short_bomLabel input Hlen) as [H|[H|H]]; rewrite Hbom in H;
        [discriminate|injection H as ->; now left|injection H as ->; now right]. }
    destruct (Hutf16 label Hwhich) as (e & name & Hreg & Hdec).
    unfold lookupPair in Hrules. rewrite Hreg in Hrules.
    rewrite <- (determineEncoding_take input "") in Hrules.
    exists (stripUTF8BOM (if decide (e = Nop) then input else (NewDecoder e input).1)).
    split; [|split; [|split]].
    + rewrite (Local_NewReader_resolved _ _ _ _ Hne Hrules).
      destruct (decide (e = Nop)).
      * now rewrite discardBOM_bytes_exact.
      * rewrite transform_bytes by apply Hdec. now rewrite discardBOM_bytes_exact.
    + intros Hascii. rewrite (allASCII_bomLabel _ Hascii) in Hbom. discriminate.
    + intros _ H. discriminate H.
    + intros label' e' name' [= <-] Hreg'. rewrite Hreg in Hreg'.
      now injection Hreg' as <- _.
  - rewrite (short_not_utf8 input Hlen) in Hrules.
    rewrite <- (determineEncoding_take input "") in Hrules.
    destruct (decide (ISO8859_1 = Nop)) as [Heq|Hneq].
    + exists input. split; [|split; [|split]].
      * rewrite (Local_NewReader_resolved _ _ _ _ Hne Hrules).
        destruct (decide (ISO8859_1 = Nop)); [|contradiction].
        rewrite discardBOM_bytes_exact. now rewrite stripUTF8BOM_short.
      * reflexivity.
      * intros Hnot. contradiction.
      * intros label e name H. discriminate H.
    + exists (decodeLatin1 input).1. split; [|split; [|split]].
      * rewrite (Local_NewReader_resolved _ _ _ _ Hne Hrules).
        destruct (decide (ISO8859_1 = Nop)); [contradiction|].
        rewrite transform_bytes by now rewrite Hlatin.
        rewrite Hlatin, discardBOM_bytes_exact. now rewrite latin1_no_bom.
      * intros Hascii. now rewrite (decodeLatin1_ascii _ Hascii).
      * reflexivity.
      * intros label e name H. discriminate H.
Qed.

Lemma NewReader_short_input_witness :
  exists out,
    output (Local.NewReader (lib := Demo.demoLib) (bytes_NewReader [x61; xe9])) = Some (out, None)
    /\ (allASCII [x61; xe9] = true -> out = [x61; xe9])
    /\ (latin1IsNotNop (lib := Demo.demoLib) ->
        bomLabel [x61; xe9] = None -> out = [x61; xc3; xa9])
    /\ (forall label e name,
           bomLabel [x61; xe9] = Some label ->
           Lookup (Library := Demo.demoLib) label = Some (e, name) ->
           out = stripUTF8BOM (if decide (e = Nop) then [x61; xe9]
                               else (NewDecoder e [x61; xe9]).1))
    /\ (bomLabel [x61; xe9] = None
        <-> [x61; xe9] <> [xfe; xff] /\ [x61; xe9] <> [xff; xfe]).
Proof.
  apply (NewReader_short_input (lib := Demo.demoLib) [x61; xe9]).
  - reflexivity.
  - intros src. reflexivity.
  - intros label [-> | ->]; eexists _, _; (split; [reflexivity|intros src; reflexivity]).
  - reflexivity.
  - cbn. lia.
Defined.
